(** * CgroupProber: a shallow embedding of collector/kernel/cgroup_prober.cc

    The filesystem and the probe loader are the environment the prober runs
    against; the walker [trigger_existing_cgroup_probe] is a while loop over an
    explicit [std::stack<std::string>], modelled as one [walk_step] per loop
    iteration with explicit state passing (the stack, the object's
    [close_dir_error_count_] and a trace of the observable effects). *)

From Stdlib Require Import List String Ascii NArith Arith Lia Bool.
From Stdlib Require Import Permutation.
Import ListNotations.
Open Scope string_scope.
Open Scope list_scope.

(** ** Environment: the filesystem calls the prober makes *)

(** [d_type] values of [struct dirent] the code distinguishes. *)
Inductive dtype := DT_DIR | DT_REG | DT_LNK | DT_UNKNOWN | DT_OTHER.

Definition dtype_eqb (a b : dtype) : bool :=
  match a, b with
  | DT_DIR, DT_DIR | DT_REG, DT_REG | DT_LNK, DT_LNK
  | DT_UNKNOWN, DT_UNKNOWN | DT_OTHER, DT_OTHER => true
  | _, _ => false
  end.

Record dirent := mk_dirent { d_name : string; d_type : dtype }.

(** File type reported in [st_mode] by [stat] (which follows symlinks). *)
Inductive file_mode := S_IFREG | S_IFDIR | S_IFLNK | S_IFCHR | S_IFOTHER.

Definition S_ISREG (m : file_mode) : bool :=
  match m with S_IFREG => true | _ => false end.

Record env := mk_env {
  (** [opendir]: [None] when it returns NULL, otherwise the entries that the
      successive [readdir] calls return, in order. *)
  opendir : string -> option (list dirent);
  (** [std::ifstream file(path)] succeeds ([file.fail()] is false). *)
  ifstream_ok : string -> bool;
  (** [closedir(dir)] returns 0. *)
  closedir_ok : string -> bool;
  (** [stat(path, &sb)]: [None] when it returns -1. *)
  stat : string -> option file_mode;
  (** the probe loader attaches handler to kernel symbol without error. *)
  attach_ok : string -> string -> bool
}.

(** [a + "/" + b] on [std::string]. *)
Definition path_join (a b : string) : string := (a ++ "/" ++ b)%string.

(** ** The walker: CgroupProber::trigger_existing_cgroup_probe *)

Inductive wevent :=
  | W_yield                              (* periodic_cb() *)
  | W_pop (dir : string)                 (* dirs_stack.top(); dirs_stack.pop() *)
  | W_opendir (dir : string) (ok : bool)
  | W_open_marker (path : string) (ok : bool)   (* std::ifstream file(path) *)
  | W_getline (path : string)            (* std::getline(file, line) *)
  | W_push (dir name : string)           (* dirs_stack.emplace(dir + "/" + name) *)
  | W_closedir (dir : string) (ok : bool).

Record wstate := mk_wstate {
  ws_stack : list string;      (* head = top of the std::stack *)
  ws_count : nat;              (* close_dir_error_count_ *)
  ws_trace : list wevent
}.

(** The [readdir] loop: [continue] on "." and ".." skips [periodic_cb]. *)
Fixpoint push_entries (dir_name : string) (ents : list dirent)
    (stack : list string) (tr : list wevent) : list string * list wevent :=
  match ents with
  | [] => (stack, tr)
  | ent :: rest =>
      if dtype_eqb (d_type ent) DT_DIR then
        if (String.eqb (d_name ent) ".") || (String.eqb (d_name ent) "..") then
          push_entries dir_name rest stack tr
        else
          push_entries dir_name rest (path_join dir_name (d_name ent) :: stack)
            (tr ++ [W_push dir_name (d_name ent); W_yield])
      else push_entries dir_name rest stack (tr ++ [W_yield])
  end.

(** [int status = closedir(dir); if (status != 0) close_dir_error_count_++;] *)
Definition count_close (ok : bool) (count : nat) : nat :=
  if ok then count else S count.

(** One iteration of [while (!dirs_stack.empty()) { ... }]. *)
Definition walk_step (e : env) (file_name : string) (st : wstate) : wstate :=
  match ws_stack st with
  | [] => st
  | dir_name :: rest =>
      let tr := ws_trace st ++ [W_yield; W_pop dir_name] in
      match opendir e dir_name with
      | None =>
          mk_wstate rest (ws_count st) (tr ++ [W_opendir dir_name false])
      | Some ents =>
          let tr := tr ++ [W_opendir dir_name true] in
          let path := path_join dir_name file_name in
          if negb (ifstream_ok e path) then
            let ok := closedir_ok e dir_name in
            mk_wstate rest (count_close ok (ws_count st))
              (tr ++ [W_open_marker path false; W_closedir dir_name ok])
          else
            let tr := tr ++ [W_open_marker path true; W_getline path] in
            let '(stack, tr) := push_entries dir_name ents rest tr in
            let ok := closedir_ok e dir_name in
            mk_wstate stack (count_close ok (ws_count st))
              (tr ++ [W_closedir dir_name ok])
      end
  end.

(** The loop, run for at most [fuel] iterations; it has terminated when the
    returned stack is empty. *)
Fixpoint walk (fuel : nat) (e : env) (file_name : string) (st : wstate) : wstate :=
  match fuel with
  | O => st
  | S n =>
      match ws_stack st with
      | [] => st
      | _ :: _ => walk n e file_name (walk_step e file_name st)
      end
  end.

(** [count] is [close_dir_error_count_] on entry. *)
Definition trigger_existing_cgroup_probe (fuel : nat) (e : env)
    (cgroup_dir_name file_name : string) (count : nat) : wstate :=
  walk fuel e file_name (mk_wstate [cgroup_dir_name] count []).

Definition popped (tr : list wevent) : list string :=
  flat_map (fun ev => match ev with W_pop d => [d] | _ => [] end) tr.

Definition pushes_of (dir : string) (tr : list wevent) : list string :=
  flat_map (fun ev => match ev with
                      | W_push d n => if String.eqb d dir then [n] else []
                      | _ => [] end) tr.

(** ** Mountpoint locator *)

(** [static bool file_exists(std::string file_path)] *)
Definition file_exists (e : env) (file_path : string) : bool :=
  match stat e file_path with
  | None => false
  | Some m => S_ISREG m
  end.

Definition is_cgroup_v1_mountpoint (e : env) (dir_path : string) : bool :=
  file_exists e (dir_path ++ "/cgroup.clone_children")%string.

Definition is_cgroup_v2_mountpoint (e : env) (dir_path : string) : bool :=
  file_exists e (dir_path ++ "/cgroup.controllers")%string.

(** The range-for with early [return mountpoint;] and the final
    [return std::string();]. *)
Fixpoint find_mountpoint (is_mountpoint : string -> bool) (mountpoints : list string)
    : string :=
  match mountpoints with
  | [] => EmptyString
  | mountpoint :: rest =>
      if is_mountpoint mountpoint then mountpoint
      else find_mountpoint is_mountpoint rest
  end.

Definition cgroup_v1_mountpoints : list string :=
  ["/hostfs/sys/fs/cgroup/memory"; "/hostfs/cgroup/memory";
   "/sys/fs/cgroup/memory"; "/cgroup/memory"].

Definition cgroup_v2_mountpoints : list string :=
  ["/hostfs/sys/fs/cgroup"; "/sys/fs/cgroup"].

Definition find_cgroup_v1_mountpoint (e : env) : string :=
  find_mountpoint (is_cgroup_v1_mountpoint e) cgroup_v1_mountpoints.

Definition find_cgroup_v2_mountpoint (e : env) : string :=
  find_mountpoint (is_cgroup_v2_mountpoint e) cgroup_v2_mountpoints.

(** ** Probe alternatives *)

Record probe_alternative := mk_alt { alt_handler : string; alt_symbol : string }.

Record ProbeAlternatives := mk_alts {
  alts_name : string;
  alts_list : list probe_alternative
}.

(** Modelled from the spec: [ProbeHandler::start_probe(module, alternatives)]
    (collector/kernel/probe_handler.cc, not in this tree). Per the spec (4.2,
    9): the alternatives are tried in the declared order and the first one that
    attaches without error ends the attempt. Returns whether the set was
    satisfied and the attempts made, each with its outcome. *)
Fixpoint attach_first_success (attach : string -> string -> bool)
    (alts : list probe_alternative) : bool * list (probe_alternative * bool) :=
  match alts with
  | [] => (false, [])
  | a :: rest =>
      if attach (alt_handler a) (alt_symbol a) then (true, [(a, true)])
      else let '(ok, att) := attach_first_success attach rest in
           (ok, (a, false) :: att)
  end.

Definition kill_kss_probe_alternatives : ProbeAlternatives :=
  mk_alts "kill css"
    [mk_alt "on_kill_css" "kill_css";
     mk_alt "on_kill_css" "css_clear_dir";
     mk_alt "on_cgroup_destroy_locked" "cgroup_destroy_locked"].

Definition css_populate_dir_probe_alternatives : ProbeAlternatives :=
  mk_alts "css populate dir"
    [mk_alt "on_css_populate_dir" "css_populate_dir";
     mk_alt "on_cgroup_populate_dir" "cgroup_populate_dir"].

(** ** Kernel version comparison *)

(** [std::string::compare]: character by character as [unsigned char], a
    proper prefix ordering before the longer string. [HostInfo::kernel_version]
    is the kernel release string ([uname -r]), compared here against the
    [std::string] threshold [cgroup_v2_first_kernel_version]. *)
Fixpoint string_compare (s t : string) : comparison :=
  match s, t with
  | EmptyString, EmptyString => Eq
  | EmptyString, String _ _ => Lt
  | String _ _, EmptyString => Gt
  | String a s', String b t' =>
      match N.compare (N_of_ascii a) (N_of_ascii b) with
      | Eq => string_compare s' t'
      | c => c
      end
  end.

(** [operator>=] on [std::string]. *)
Definition string_ge (s t : string) : bool :=
  match string_compare s t with Lt => false | _ => true end.

Definition cgroup_v2_first_kernel_version : string := "4.6".

(** ** The constructor: CgroupProber::CgroupProber *)

Inductive pevent :=
  | P_attach (handler symbol : string) (ok : bool)  (* one attempt of start_probe(module, alternatives) *)
  | P_start_probe (handler symbol : string)
  | P_start_kretprobe (handler symbol : string)
  | P_cleanup_probe (symbol : string)
  | P_cleanup_kretprobe (symbol : string)
  | P_periodic                                      (* periodic_cb() *)
  | P_check (msg : string)                          (* check_cb(msg) *)
  | P_find_mountpoint (version : nat) (result : string)
  | P_walk (file_name : string) (ev : wevent).     (* an effect of trigger_existing_cgroup_probe *)

Record prober := mk_prober {
  p_count : nat;             (* close_dir_error_count_ *)
  p_trace : list pevent
}.

Definition emit (p : prober) (evs : list pevent) : prober :=
  mk_prober (p_count p) (p_trace p ++ evs).

Definition obind {A B : Type} (m : option A) (k : A -> option B) : option B :=
  match m with Some a => k a | None => None end.

Notation "x <- m ;; k" := (obind m (fun x => k))
  (at level 61, m at next level, right associativity).

(** [probe_handler.start_probe(bpf_module, alternatives)] *)
Definition start_probe_alternatives (e : env) (alts : ProbeAlternatives) : list pevent :=
  map (fun '(a, ok) => P_attach (alt_handler a) (alt_symbol a) ok)
      (snd (attach_first_success (attach_ok e) (alts_list alts))).

(** [trigger_existing_cgroup_probe(root, file_name, periodic_cb)] from the
    constructor; [None] when the loop has not finished within [fuel]
    iterations. *)
Definition backfill (fuel : nat) (e : env) (root file_name : string) (p : prober)
    : option prober :=
  let w := trigger_existing_cgroup_probe fuel e root file_name (p_count p) in
  match ws_stack w with
  | [] => Some (mk_prober (ws_count w) (p_trace p ++ map (P_walk file_name) (ws_trace w)))
  | _ :: _ => None
  end.

(** [std::string::empty()] *)
Definition string_empty (s : string) : bool :=
  match s with EmptyString => true | String _ _ => false end.

Definition CgroupProber (fuel : nat) (e : env) (kernel_version : string) : option prober :=
  let p := mk_prober 0 [] in
  (* END *)
  let p := emit p (start_probe_alternatives e kill_kss_probe_alternatives ++ [P_periodic]) in
  (* START *)
  let p := emit p (start_probe_alternatives e css_populate_dir_probe_alternatives
                   ++ [P_periodic]) in
  (* EXISTING cgroups v1 *)
  let p := emit p [P_start_probe "on_cgroup_clone_children_read" "cgroup_clone_children_read";
                   P_start_probe "on_cgroup_attach_task" "cgroup_attach_task";
                   P_periodic; P_check "cgroup prober startup"] in
  let cgroup_v1_mountpoint := find_cgroup_v1_mountpoint e in
  let p := emit p [P_find_mountpoint 1 cgroup_v1_mountpoint] in
  p <- (if negb (string_empty cgroup_v1_mountpoint) then
          p <- backfill fuel e cgroup_v1_mountpoint "cgroup.clone_children" p ;;
          Some (emit p [P_check "trigger_cgroup_clone_children_read()"])
        else Some p) ;;
  let p := emit p [P_cleanup_probe "cgroup_clone_children_read"] in
  (* EXISTING cgroups v2 *)
  p <- (if string_ge kernel_version cgroup_v2_first_kernel_version then
          let p := emit p [P_start_probe "on_cgroup_control" "cgroup_control";
                           P_start_kretprobe "onret_cgroup_control" "cgroup_control"] in
          let cgroup_v2_mountpoint := find_cgroup_v2_mountpoint e in
          let p := emit p [P_find_mountpoint 2 cgroup_v2_mountpoint] in
          p <- (if negb (string_empty cgroup_v2_mountpoint) then
                  p <- backfill fuel e cgroup_v2_mountpoint "cgroup.controllers" p ;;
                  Some (emit p [P_check "trigger_cgroup_control()"])
                else Some p) ;;
          Some (emit p [P_cleanup_kretprobe "cgroup_control";
                        P_cleanup_probe "cgroup_control"])
        else Some p) ;;
  Some (emit p [P_periodic; P_check "cgroup prober cleanup()"]).

(** Effects of the cgroup v2 phase (probes on [cgroup_control], locating the
    v2 mountpoint, the v2 backfill and its checkpoint). *)
Definition is_v2_event (ev : pevent) : bool :=
  match ev with
  | P_start_probe _ s | P_start_kretprobe _ s
  | P_cleanup_probe s | P_cleanup_kretprobe s => String.eqb s "cgroup_control"
  | P_find_mountpoint v _ => Nat.eqb v 2
  | P_walk f _ => String.eqb f "cgroup.controllers"
  | P_check m => String.eqb m "trigger_cgroup_control()"
  | _ => false
  end.

(** Effects of the cgroup v1 backfill phase. *)
Definition is_v1_backfill_event (ev : pevent) : bool :=
  match ev with
  | P_find_mountpoint v _ => Nat.eqb v 1
  | P_walk f _ => String.eqb f "cgroup.clone_children"
  | P_check m => String.eqb m "trigger_cgroup_clone_children_read()"
  | _ => false
  end.

Definition v2_phase_attempted (tr : list pevent) : bool := existsb is_v2_event tr.

(** ** Directory trees *)

(** A cgroup hierarchy as the walker sees it: each node is labelled with its
    full path. *)
Set Warnings "-register-all".
Inductive cgtree := Node (path : string) (kids : list cgtree).

Definition troot (t : cgtree) : string := match t with Node p _ => p end.

Fixpoint tnodes (t : cgtree) : list string :=
  match t with Node p ks => p :: flat_map tnodes ks end.

(** An entry the [readdir] loop pushes. *)
Definition is_subdir (ent : dirent) : bool :=
  dtype_eqb (d_type ent) DT_DIR
  && negb (String.eqb (d_name ent) "." || String.eqb (d_name ent) "..").

Definition subdirs (ents : list dirent) : list string :=
  map d_name (filter is_subdir ents).

Fixpoint strings_eqb (l m : list string) : bool :=
  match l, m with
  | [], [] => true
  | a :: l', b :: m' => String.eqb a b && strings_eqb l' m'
  | _, _ => false
  end.

(** [t] is the hierarchy below [troot t] in [e]: every node's directory opens,
    its marker file opens, and its subdirectory entries, in [readdir] order,
    are the node's children. *)
Fixpoint tree_ok (e : env) (file_name : string) (t : cgtree) : bool :=
  match t with
  | Node p ks =>
      match opendir e p with
      | None => false
      | Some ents =>
          ifstream_ok e (path_join p file_name)
          && strings_eqb (map (path_join p) (subdirs ents)) (map troot ks)
          && forallb (tree_ok e file_name) ks
      end
  end.

Definition failed_closes (tr : list wevent) : nat :=
  List.length (filter (fun ev => match ev with W_closedir _ false => true | _ => false end) tr).

Definition marker_opens (tr : list wevent) : list string :=
  flat_map (fun ev => match ev with W_open_marker p _ => [p] | _ => [] end) tr.

(** The trace with every [closedir] outcome forgotten. *)
Definition erase_close (ev : wevent) : wevent :=
  match ev with W_closedir d _ => W_closedir d true | _ => ev end.

(** The [(directory, entry name)] pairs pushed, in order. *)
Definition pushes (tr : list wevent) : list (string * string) :=
  flat_map (fun ev => match ev with W_push d n => [(d, n)] | _ => [] end) tr.

(** The same filesystem with [closedir] reporting [c]. *)
Definition with_closedir (e : env) (c : string -> bool) : env :=
  mk_env (opendir e) (ifstream_ok e) c (stat e) (attach_ok e).

(** ** Observations used by further properties *)

(** Number of trace events satisfying [f]. *)
Definition count_ev {A : Type} (f : A -> bool) (tr : list A) : nat :=
  List.length (filter f tr).

Definition is_opendir_ok (d : string) (ev : wevent) : bool :=
  match ev with W_opendir d' true => String.eqb d' d | _ => false end.

Definition is_closedir (d : string) (ev : wevent) : bool :=
  match ev with W_closedir d' _ => String.eqb d' d | _ => false end.

Definition is_any_opendir_ok (ev : wevent) : bool :=
  match ev with W_opendir _ true => true | _ => false end.

Definition is_marker_attempt (ev : wevent) : bool :=
  match ev with W_open_marker _ _ => true | _ => false end.

Definition is_marker_at (path : string) (ev : wevent) : bool :=
  match ev with W_open_marker p _ => String.eqb p path | _ => false end.

Definition is_marker_ok (path : string) (ev : wevent) : bool :=
  match ev with W_open_marker p true => String.eqb p path | _ => false end.

Definition is_getline (path : string) (ev : wevent) : bool :=
  match ev with W_getline p => String.eqb p path | _ => false end.

(** [flat_map] over a list taken from its last element to its first. *)
Fixpoint rev_flat_map {A B : Type} (f : A -> list B) (l : list A) : list B :=
  match l with
  | [] => []
  | x :: l' => rev_flat_map f l' ++ f x
  end.

(** Depth-first preorder in which the children of a node come last-read
    first (the LIFO order of [dirs_stack]). *)
Fixpoint preorder (t : cgtree) : list string :=
  match t with Node p ks => p :: rev_flat_map preorder ks end.

(** Failed [closedir] calls among the walker effects of a constructor run. *)
Definition prober_failed_closes (tr : list pevent) : nat :=
  count_ev (fun ev => match ev with P_walk _ (W_closedir _ false) => true | _ => false end) tr.

(** The [check_cb] messages, in order. *)
Definition checkpoints (tr : list pevent) : list string :=
  flat_map (fun ev => match ev with P_check m => [m] | _ => [] end) tr.

(** The single-symbol probe operations ([start_probe], [start_kretprobe],
    [cleanup_probe], [cleanup_kretprobe]), in order. *)
Definition probe_ops (tr : list pevent) : list pevent :=
  filter (fun ev => match ev with
                    | P_start_probe _ _ | P_start_kretprobe _ _
                    | P_cleanup_probe _ | P_cleanup_kretprobe _ => true
                    | _ => false end) tr.

(** The constructor's effects before it locates the v1 mountpoint. *)
Definition prober_prefix (e : env) : list pevent :=
  start_probe_alternatives e kill_kss_probe_alternatives ++ [P_periodic]
  ++ start_probe_alternatives e css_populate_dir_probe_alternatives ++ [P_periodic]
  ++ [P_start_probe "on_cgroup_clone_children_read" "cgroup_clone_children_read";
      P_start_probe "on_cgroup_attach_task" "cgroup_attach_task";
      P_periodic; P_check "cgroup prober startup"].

(** A name with no ['/'] in it, as every name [readdir] returns. *)
Fixpoint no_slash (s : string) : bool :=
  match s with
  | EmptyString => true
  | String c s' => negb (Ascii.eqb c "/") && no_slash s'
  end.

(** [q] is [x] or a path below [x]. *)
Definition below (x q : string) : Prop :=
  q = x \/ exists s, q = (x ++ "/" ++ s)%string.

(** A directory the walker descends into: it opens and so does its marker. *)
Definition node_open (e : env) (file_name : string) (p : string) : bool :=
  match opendir e p with
  | None => false
  | Some _ => ifstream_ok e (path_join p file_name)
  end.

(** A hierarchy in which every node whose directory and marker file open
    lists exactly its children as subdirectories; a node that fails to open
    (directory or marker) may have any descendants. *)
Fixpoint tree_fits (e : env) (file_name : string) (t : cgtree) : bool :=
  match t with
  | Node p ks =>
      match opendir e p with
      | None => true
      | Some ents =>
          if ifstream_ok e (path_join p file_name) then
            strings_eqb (map (path_join p) (subdirs ents)) (map troot ks)
            && forallb (tree_fits e file_name) ks
          else true
      end
  end.

(** The nodes whose proper ancestors all open. *)
Fixpoint tvisited (e : env) (file_name : string) (t : cgtree) : list string :=
  match t with
  | Node p ks => p :: (if node_open e file_name p then flat_map (tvisited e file_name) ks
                       else [])
  end.

Fixpoint subtrees (t : cgtree) : list cgtree :=
  match t with Node _ ks => t :: flat_map subtrees ks end.

(** ** Concrete filesystems *)

Definition dot_entries : list dirent := [mk_dirent "." DT_DIR; mk_dirent ".." DT_DIR].

(** [/t/cgA] with the subdirectory [/t/cgA/cgA1], each with a readable
    [cgroup.clone_children]; every [closedir] succeeds. *)
Definition env_cgA : env :=
  mk_env
    (fun p => if String.eqb p "/t/cgA" then
                Some (dot_entries ++ [mk_dirent "cgA1" DT_DIR;
                                      mk_dirent "cgroup.clone_children" DT_REG])
              else if String.eqb p "/t/cgA/cgA1" then
                Some (dot_entries ++ [mk_dirent "cgroup.clone_children" DT_REG])
              else None)
    (fun p => String.eqb p "/t/cgA/cgroup.clone_children"
              || String.eqb p "/t/cgA/cgA1/cgroup.clone_children")
    (fun _ => true)
    (fun p => if String.eqb p "/t/cgA/cgroup.clone_children"
                 || String.eqb p "/t/cgA/cgA1/cgroup.clone_children" then Some S_IFREG
              else if String.eqb p "/t/cgA" || String.eqb p "/t/cgA/cgA1" then Some S_IFDIR
              else None)
    (fun _ _ => true).

(** [/r] with the subdirectory [/r/c]; the marker file of [/r] cannot be
    opened, the one of [/r/c] can. *)
Definition env_no_marker : env :=
  mk_env
    (fun p => if String.eqb p "/r" then Some (dot_entries ++ [mk_dirent "c" DT_DIR])
              else if String.eqb p "/r/c" then Some dot_entries
              else None)
    (fun p => String.eqb p "/r/c/cgroup.clone_children")
    (fun _ => true)
    (fun _ => None)
    (fun _ _ => true).

(** [/r] whose entries [l] (a symlink to a directory) and [u] (type not
    reported) are both directories that open; [/r/l] has a subdirectory [x]
    of its own. *)
Definition env_untyped : env :=
  mk_env
    (fun p => if String.eqb p "/r" then
                Some (dot_entries ++ [mk_dirent "l" DT_LNK; mk_dirent "u" DT_UNKNOWN])
              else if String.eqb p "/r/l" then Some (dot_entries ++ [mk_dirent "x" DT_DIR])
              else if String.eqb p "/r/u" || String.eqb p "/r/l/x" then Some dot_entries
              else None)
    (fun _ => true)
    (fun _ => true)
    (fun _ => None)
    (fun _ _ => true).

(** Only the third v1 candidate carries the marker file. *)
Definition env_third_v1 : env :=
  mk_env (fun _ => None) (fun _ => true) (fun _ => true)
    (fun p => if String.eqb p "/sys/fs/cgroup/memory/cgroup.clone_children"
              then Some S_IFREG else None)
    (fun _ _ => true).

(** The second "kill css" alternative attaches, the first does not. *)
Definition env_kill_second : env :=
  mk_env (fun _ => None) (fun _ => true) (fun _ => true) (fun _ => None)
    (fun h s => negb (String.eqb s "kill_css")).

(** The hierarchy of [env_cgA] as a tree. *)
Definition tree_cgA : cgtree := Node "/t/cgA" [Node "/t/cgA/cgA1" []].

(** A hybrid host: [/sys/fs/cgroup/memory] is the v1 mountpoint and
    [/sys/fs/cgroup] the v2 one; every marker file opens. *)
Definition env_hybrid : env :=
  mk_env
    (fun p => if String.eqb p "/sys/fs/cgroup/memory" || String.eqb p "/sys/fs/cgroup"
              then Some dot_entries else None)
    (fun _ => true)
    (fun _ => true)
    (fun p => if String.eqb p "/sys/fs/cgroup/memory/cgroup.clone_children"
                 || String.eqb p "/sys/fs/cgroup/cgroup.controllers" then Some S_IFREG
              else None)
    (fun _ _ => true).

(** ** Evaluations *)

Example walk_cgA_trace :
  ws_trace (trigger_existing_cgroup_probe 10 env_cgA "/t/cgA" "cgroup.clone_children" 0) =
  [W_yield; W_pop "/t/cgA"; W_opendir "/t/cgA" true;
   W_open_marker "/t/cgA/cgroup.clone_children" true;
   W_getline "/t/cgA/cgroup.clone_children";
   W_push "/t/cgA" "cgA1"; W_yield; W_yield; W_closedir "/t/cgA" true;
   W_yield; W_pop "/t/cgA/cgA1"; W_opendir "/t/cgA/cgA1" true;
   W_open_marker "/t/cgA/cgA1/cgroup.clone_children" true;
   W_getline "/t/cgA/cgA1/cgroup.clone_children";
   W_yield; W_closedir "/t/cgA/cgA1" true].
Proof. vm_compute. reflexivity. Qed.

Example walk_no_marker_trace :
  ws_trace (trigger_existing_cgroup_probe 10 env_no_marker "/r" "cgroup.clone_children" 0) =
  [W_yield; W_pop "/r"; W_opendir "/r" true;
   W_open_marker "/r/cgroup.clone_children" false; W_closedir "/r" true].
Proof. vm_compute. reflexivity. Qed.

Example hybrid_v2_by_kernel :
  (exists p, CgroupProber 2 env_hybrid "5.4.0" = Some p
             /\ v2_phase_attempted (p_trace p) = true)
  /\ (exists p, CgroupProber 2 env_hybrid "4.6" = Some p
                /\ v2_phase_attempted (p_trace p) = true)
  /\ (exists p, CgroupProber 2 env_hybrid "4.19.0" = Some p
                /\ v2_phase_attempted (p_trace p) = false).
Proof. split; [|split]; eexists; split; vm_compute; reflexivity. Qed.

Example string_ge_examples :
  string_ge "4.6" "4.6" = true /\ string_ge "4.5.7" "4.6" = false
  /\ string_ge "5.15.0-91-generic" "4.6" = true /\ string_ge "4.10" "4.6" = false.
Proof. vm_compute. repeat split. Qed.

(** ** General lemmas about the walker *)

(** The events the [readdir] loop appends. *)
Definition entries_trace (dir_name : string) (ents : list dirent) : list wevent :=
  flat_map (fun ent =>
              if dtype_eqb (d_type ent) DT_DIR then
                if (String.eqb (d_name ent) ".") || (String.eqb (d_name ent) "..") then []
                else [W_push dir_name (d_name ent); W_yield]
              else [W_yield]) ents.

Lemma push_entries_eq : forall dir_name ents stack tr,
  push_entries dir_name ents stack tr =
  (rev (map (path_join dir_name) (subdirs ents)) ++ stack,
   tr ++ entries_trace dir_name ents).
Proof.
  intros dir_name ents; induction ents as [|ent rest IH]; intros stack tr.
  - simpl. rewrite app_nil_r. reflexivity.
  - unfold subdirs, is_subdir. simpl.
    destruct (dtype_eqb (d_type ent) DT_DIR);
      destruct ((d_name ent =? ".")%string || (d_name ent =? "..")%string); simpl;
      rewrite IH; fold (subdirs rest);
      rewrite ?map_app, ?rev_app_distr, <- ?app_assoc; reflexivity.
Qed.

Lemma in_entries_trace : forall dir_name ents ev,
  In ev (entries_trace dir_name ents) ->
  ev = W_yield \/
  exists n, ev = W_push dir_name n /\ In (mk_dirent n DT_DIR) ents
            /\ n <> "." /\ n <> "..".
Proof.
  intros dir_name ents ev H. unfold entries_trace in H.
  apply in_flat_map in H as [[n ty] [Hin Hev]]. simpl in Hev.
  destruct ty; simpl in Hev;
    try (destruct Hev as [<-|[]]; left; reflexivity).
  destruct (String.eqb_spec n ".") as [E1|E1]; simpl in Hev; [destruct Hev|].
  destruct (String.eqb_spec n "..") as [E2|E2]; simpl in Hev; [destruct Hev|].
  destruct Hev as [<-|[<-|[]]]; [right | left; reflexivity].
  exists n. auto.
Qed.

(** Induction principle for the loop: an invariant of every iteration that
    runs on a non-empty stack holds at the end. *)
Lemma walk_invariant : forall (Inv : wstate -> Prop) e file_name,
  (forall st d rest, ws_stack st = d :: rest -> Inv st -> Inv (walk_step e file_name st)) ->
  forall fuel st, Inv st -> Inv (walk fuel e file_name st).
Proof.
  intros Inv e file_name Hstep fuel; induction fuel as [|n IH]; intros st Hst; simpl.
  - exact Hst.
  - destruct (ws_stack st) as [|d rest] eqn:E; [exact Hst|].
    apply IH. eapply Hstep; eauto.
Qed.

(** The events one iteration appends, by case. *)
Lemma walk_step_cases : forall e file_name st d rest,
  ws_stack st = d :: rest ->
  let path := path_join d file_name in
  let pre := ws_trace st ++ [W_yield; W_pop d] in
  (opendir e d = None /\
   walk_step e file_name st = mk_wstate rest (ws_count st) (pre ++ [W_opendir d false]))
  \/ (exists ents, opendir e d = Some ents /\ ifstream_ok e path = false /\
      walk_step e file_name st =
        mk_wstate rest (count_close (closedir_ok e d) (ws_count st))
          (pre ++ [W_opendir d true; W_open_marker path false;
                   W_closedir d (closedir_ok e d)]))
  \/ (exists ents, opendir e d = Some ents /\ ifstream_ok e path = true /\
      walk_step e file_name st =
        mk_wstate (rev (map (path_join d) (subdirs ents)) ++ rest)
          (count_close (closedir_ok e d) (ws_count st))
          (pre ++ [W_opendir d true; W_open_marker path true; W_getline path]
               ++ entries_trace d ents ++ [W_closedir d (closedir_ok e d)])).
Proof.
  intros e file_name st d rest Hs path pre.
  unfold walk_step. rewrite Hs.
  destruct (opendir e d) as [ents|] eqn:Eo.
  - right. subst path pre. destruct (ifstream_ok e (path_join d file_name)) eqn:Ei.
    + right. exists ents. split; [reflexivity|]. split; [reflexivity|].
      simpl. rewrite push_entries_eq. rewrite <- !app_assoc. reflexivity.
    + left. exists ents. split; [reflexivity|]. split; [reflexivity|].
      simpl. rewrite <- !app_assoc. reflexivity.
  - left. split; reflexivity.
Qed.

Lemma in_pushes : forall tr d n, In (d, n) (pushes tr) <-> In (W_push d n) tr.
Proof.
  intros tr d n. unfold pushes. rewrite in_flat_map. split.
  - intros [ev [Hin Hev]]. destruct ev; simpl in Hev; try contradiction.
    destruct Hev as [[= <- <-]|[]]. exact Hin.
  - intros H. exists (W_push d n). simpl. auto.
Qed.

Lemma in_popped : forall tr p, In p (popped tr) <-> In (W_pop p) tr.
Proof.
  intros tr p. unfold popped. rewrite in_flat_map. split.
  - intros [ev [Hin Hev]]. destruct ev; simpl in Hev; try contradiction.
    destruct Hev as [<-|[]]. exact Hin.
  - intros H. exists (W_pop p). simpl. auto.
Qed.

Lemma popped_app : forall l m, popped (l ++ m) = popped l ++ popped m.
Proof. intros. unfold popped. apply flat_map_app. Qed.

Lemma popped_cons : forall ev l,
  popped (ev :: l) = match ev with W_pop d => [d] | _ => [] end ++ popped l.
Proof. reflexivity. Qed.

Lemma popped_entries_trace : forall d ents, popped (entries_trace d ents) = [].
Proof.
  intros d ents. unfold popped, entries_trace. induction ents as [|[n ty] rest IH].
  - reflexivity.
  - simpl. rewrite flat_map_app. rewrite IH, app_nil_r.
    destruct ty; simpl; try reflexivity.
    destruct ((n =? ".")%string || (n =? "..")%string); reflexivity.
Qed.

Ltac not_in := let H := fresh in intros H; repeat (destruct H as [H|H]; [discriminate H|]); exact H.

(** What one iteration appends to the trace. *)
Lemma walk_step_events : forall e file_name st d rest,
  ws_stack st = d :: rest ->
  exists l, ws_trace (walk_step e file_name st) = ws_trace st ++ l /\
  forall ev, In ev l ->
    ev = W_yield \/ ev = W_pop d \/ (exists ok, ev = W_opendir d ok)
    \/ (exists ok, ev = W_open_marker (path_join d file_name) ok)
    \/ ev = W_getline (path_join d file_name)
    \/ ev = W_closedir d (closedir_ok e d)
    \/ (exists n ents, ev = W_push d n /\ opendir e d = Some ents
         /\ ifstream_ok e (path_join d file_name) = true
         /\ In (mk_dirent n DT_DIR) ents /\ n <> "." /\ n <> "..").
Proof.
  intros e file_name st d rest Hs.
  destruct (walk_step_cases e file_name st d rest Hs)
    as [[_ E]|[[ents [_ [_ E]]]|[ents [Ho [Hi E]]]]]; rewrite E; simpl;
    eexists; (split; [rewrite <- ?app_assoc; reflexivity|]); intros ev Hev;
    simpl in Hev; rewrite ?in_app_iff in Hev; simpl in Hev.
  - destruct Hev as [<-|[<-|[<-|[]]]]; eauto 10.
  - destruct Hev as [<-|[<-|[<-|[<-|[<-|[]]]]]]; eauto 10.
  - destruct Hev as [<-|[<-|[<-|[<-|[<-|[Hev|[<-|[]]]]]]]]; eauto 10.
    apply in_entries_trace in Hev as [->|[n [-> [Hn [H1 H2]]]]]; [auto|].
    do 6 right. exists n, ents. repeat split; assumption.
Qed.

Lemma pushes_of_nil : forall d tr,
  (forall n, ~ In (W_push d n) tr) -> pushes_of d tr = [].
Proof.
  intros d tr H. induction tr as [|ev tr IH]; [reflexivity|].
  unfold pushes_of in *. simpl.
  assert (H' : forall n, ~ In (W_push d n) tr) by (intros n Hn; apply (H n); right; exact Hn).
  destruct ev; try (apply IH; exact H').
  destruct (String.eqb_spec dir d) as [->|Ne].
  - exfalso. apply (H name). left. reflexivity.
  - apply IH. exact H'.
Qed.

(** * Claims *)

(** C1 (as stated, refuted): a node whose directory opens but whose marker file
    does not has its subdirectories pushed. In [env_no_marker], [/r] opens, its
    marker file does not, it lists the subdirectory [c], and the finished walk
    never pushes [c]. *)
Lemma marker_failure_descends_counterexample :
  let w := trigger_existing_cgroup_probe 10 env_no_marker "/r" "cgroup.clone_children" 0 in
  ws_stack w = [] /\ In (W_pop "/r") (ws_trace w)
  /\ opendir env_no_marker "/r" = Some (dot_entries ++ [mk_dirent "c" DT_DIR])
  /\ ifstream_ok env_no_marker (path_join "/r" "cgroup.clone_children") = false
  /\ ~ In (W_push "/r" "c") (ws_trace w)
  /\ ~ In (W_pop "/r/c") (ws_trace w).
Proof.
  vm_compute. split; [reflexivity|]. split; [auto 10|].
  split; [reflexivity|]. split; [reflexivity|]. split; not_in.
Qed.

(** C1 (amended): when a node's directory opens but its marker file
    [node + "/" + file_name] fails to open, the iteration closes the directory
    (counting a failed close), enumerates none of its entries and continues with
    the rest of the stack; over a whole run, no entry of that node is pushed. *)
Theorem marker_failure_skips_children : forall fuel e root file_name count d,
  ifstream_ok e (path_join d file_name) = false ->
  (forall st rest ents, ws_stack st = d :: rest -> opendir e d = Some ents ->
     walk_step e file_name st =
       mk_wstate rest (count_close (closedir_ok e d) (ws_count st))
         (ws_trace st ++ [W_yield; W_pop d; W_opendir d true;
                          W_open_marker (path_join d file_name) false;
                          W_closedir d (closedir_ok e d)]))
  /\ pushes_of d (ws_trace (trigger_existing_cgroup_probe fuel e root file_name count)) = [].
Proof.
  intros fuel e root file_name count d Hm. split.
  - intros st rest ents Hs Ho.
    destruct (walk_step_cases e file_name st d rest Hs)
      as [[Ho' _]|[[ents' [_ [_ E]]]|[ents' [_ [Hi _]]]]].
    + congruence.
    + rewrite E, <- app_assoc. reflexivity.
    + congruence.
  - apply pushes_of_nil. unfold trigger_existing_cgroup_probe.
    apply (walk_invariant (fun st => forall n, ~ In (W_push d n) (ws_trace st))).
    2: { intros n []. }
    intros st d' rest Hs Hinv n Hn.
    destruct (walk_step_events e file_name st d' rest Hs) as [l [E Hl]].
    rewrite E, in_app_iff in Hn. destruct Hn as [Hn|Hn]; [exact (Hinv n Hn)|].
    destruct (Hl _ Hn) as [H|[H|[[ok H]|[[ok H]|[H|[H|[n' [ents [H [_ [Hi _]]]]]]]]]]];
      try discriminate H.
    injection H as -> ->. congruence.
Qed.

Lemma marker_failure_skips_children_witness :
  ifstream_ok env_no_marker (path_join "/r" "cgroup.clone_children") = false /\
  pushes_of "/r" (ws_trace (trigger_existing_cgroup_probe 10 env_no_marker "/r"
                              "cgroup.clone_children" 0)) = [].
Proof.
  split; [vm_compute; reflexivity|].
  exact (proj2 (marker_failure_skips_children 10 env_no_marker "/r"
                  "cgroup.clone_children" 0 "/r" eq_refl)).
Defined.

(** C8: in every run of the walker, no pushed entry is named "." or "..". *)
Theorem walker_never_pushes_dot_entries : forall fuel e root file_name count,
  Forall (fun dn => snd dn <> "." /\ snd dn <> "..")
    (pushes (ws_trace (trigger_existing_cgroup_probe fuel e root file_name count))).
Proof.
  intros fuel e root file_name count. apply Forall_forall. intros [d n] H.
  apply in_pushes in H. simpl. revert H. revert d n.
  unfold trigger_existing_cgroup_probe.
  apply (walk_invariant (fun st => forall d n, In (W_push d n) (ws_trace st) ->
                                   n <> "." /\ n <> "..")).
  2: { intros d n []. }
  intros st d' rest Hs Hinv d n Hn.
  destruct (walk_step_events e file_name st d' rest Hs) as [l [E Hl]].
  rewrite E, in_app_iff in Hn. destruct Hn as [Hn|Hn]; [exact (Hinv d n Hn)|].
  destruct (Hl _ Hn) as [H|[H|[[ok H]|[[ok H]|[H|[H|[n' [ents [H [_ [_ [_ [H1 H2]]]]]]]]]]]]];
    try discriminate H.
  injection H as -> ->. auto.
Qed.

Lemma in_subdirs_entries_trace : forall d ents n,
  In n (subdirs ents) -> In (W_push d n) (entries_trace d ents).
Proof.
  intros d ents n H. unfold subdirs in H. apply in_map_iff in H as [ent [<- Hin]].
  apply filter_In in Hin as [Hin Hs]. unfold entries_trace. apply in_flat_map.
  exists ent. split; [exact Hin|]. unfold is_subdir in Hs.
  destruct (dtype_eqb (d_type ent) DT_DIR); [|discriminate].
  destruct ((d_name ent =? ".")%string || (d_name ent =? "..")%string); [discriminate|].
  left. reflexivity.
Qed.

Lemma string_app_assoc : forall a b c : string,
  ((a ++ b) ++ c)%string = (a ++ (b ++ c))%string.
Proof. induction a as [|ch a IH]; intros b c; simpl; [reflexivity|rewrite IH; reflexivity]. Qed.

Lemma no_slash_join : forall a b, no_slash (a ++ "/" ++ b)%string = false.
Proof.
  intros a b. change ("/" ++ b)%string with (String "/" b).
  induction a as [|c a IH]; simpl; [reflexivity|].
  rewrite IH, andb_false_r. reflexivity.
Qed.

(** [dir + "/" + name] determines [dir] and [name] when [name] has no ['/']. *)
Lemma join_inj : forall a b n m, no_slash n = true -> no_slash m = true ->
  (a ++ "/" ++ n)%string = (b ++ "/" ++ m)%string -> a = b /\ n = m.
Proof.
  induction a as [|c a IH]; intros [|c' b] n m Hn Hm H; simpl in H.
  - injection H as ->. auto.
  - injection H as <- Hn'. subst n. pose proof (no_slash_join b m) as Hc.
    simpl in Hc, Hn. congruence.
  - injection H as -> Hm'. subst m. pose proof (no_slash_join a n) as Hc.
    simpl in Hc, Hm. congruence.
  - injection H as <- H. destruct (IH b n m Hn Hm H) as [-> ->]. auto.
Qed.

Lemma split_last_slash : forall s,
  no_slash s = true \/ exists s1 s2, s = (s1 ++ "/" ++ s2)%string /\ no_slash s2 = true.
Proof.
  induction s as [|c s IH]; [left; reflexivity|].
  destruct IH as [H|[s1 [s2 [-> H]]]].
  - destruct (Ascii.eqb_spec c "/") as [->|Nc].
    + right. exists "", s. auto.
    + left. simpl. apply Ascii.eqb_neq in Nc. rewrite Nc, H. reflexivity.
  - right. exists (String c s1), s2. auto.
Qed.

Lemma below_join : forall x d n, no_slash n = true -> below x (path_join d n) ->
  path_join d n = x \/ below x d.
Proof.
  intros x d n Hn [H|[s H]]; [left; exact H|right].
  unfold path_join in H. destruct (split_last_slash s) as [Hs|[s1 [s2 [-> Hs2]]]].
  - destruct (join_inj d x n s Hn Hs H) as [-> _]. left. reflexivity.
  - assert (Heq : (x ++ "/" ++ s1 ++ "/" ++ s2)%string = ((x ++ "/" ++ s1) ++ "/" ++ s2)%string)
      by (rewrite !string_app_assoc; reflexivity).
    rewrite Heq in H. destruct (join_inj d _ n s2 Hn Hs2 H) as [-> _].
    right. exists s1. reflexivity.
Qed.

Lemma in_subdirs_dirent : forall ents n, In n (subdirs ents) ->
  exists ent, In ent ents /\ d_name ent = n /\ ent = mk_dirent n DT_DIR.
Proof.
  intros ents n H. unfold subdirs in H. apply in_map_iff in H as [ent [<- Hin]].
  apply filter_In in Hin as [Hin Hs]. exists ent. split; [exact Hin|]. split; [reflexivity|].
  unfold is_subdir in Hs. destruct ent as [nm [| | | |]]; simpl in Hs; try discriminate Hs.
  reflexivity.
Qed.

(** If a directory [d] lists [n] with no [DT_DIR] entry of that name, no
    popped path lies at or below [d/n], unless the walk starts there. *)
Lemma walker_avoids_unlisted_subtree : forall fuel e root file_name count d ents n ty,
  (forall d' ents' ent, opendir e d' = Some ents' -> In ent ents' -> no_slash (d_name ent) = true) ->
  opendir e d = Some ents -> In (mk_dirent n ty) ents -> ~ In (mk_dirent n DT_DIR) ents ->
  ~ below (path_join d n) root ->
  forall q, In q (popped (ws_trace (trigger_existing_cgroup_probe fuel e root file_name count))) ->
  ~ below (path_join d n) q.
Proof.
  intros fuel e root file_name count d ents n ty Hns Hd Hin Hdir Hroot.
  assert (Hn : no_slash n = true) by exact (Hns d ents _ Hd Hin).
  set (Inv := fun st => forall q, In q (ws_stack st) \/ In q (popped (ws_trace st)) ->
                                  ~ below (path_join d n) q).
  assert (HI : Inv (trigger_existing_cgroup_probe fuel e root file_name count)).
  { unfold trigger_existing_cgroup_probe. apply walk_invariant.
    2: { intros q [Hq|Hq]; simpl in Hq; [destruct Hq as [<-|[]]; exact Hroot|destruct Hq]. }
    intros st d' rest Hs Hinv q Hq.
    assert (Hd' : ~ below (path_join d n) d')
      by (apply Hinv; left; rewrite Hs; left; reflexivity).
    assert (Hr : forall q, In q rest -> ~ below (path_join d n) q)
      by (intros q' Hq'; apply Hinv; left; rewrite Hs; right; exact Hq').
    assert (Ho : forall q, In q (popped (ws_trace st)) -> ~ below (path_join d n) q)
      by (intros q' Hq'; apply Hinv; right; exact Hq').
    destruct (walk_step_cases e file_name st d' rest Hs)
      as [[_ E]|[[ents' [_ [_ E]]]|[ents' [Ho' [_ E]]]]]; rewrite E in Hq;
      cbn [ws_stack ws_trace] in Hq;
      rewrite ?popped_app, ?popped_entries_trace in Hq; simpl in Hq;
      rewrite ?in_app_iff in Hq; simpl in Hq.
    all: repeat destruct Hq as [Hq|Hq]; try contradiction; try (subst q; exact Hd'); auto.
    apply in_rev, in_map_iff in Hq as [n' [<- Hn']].
    destruct (in_subdirs_dirent ents' n' Hn') as [ent [Hent [Hnm Heq]]].
    assert (Hn'' : no_slash n' = true) by (rewrite <- Hnm; exact (Hns d' ents' ent Ho' Hent)).
    intros Hb. destruct (below_join _ d' n' Hn'' Hb) as [Hj|Hb'].
    - unfold path_join in Hj. destruct (join_inj d' d n' n Hn'' Hn Hj) as [-> ->].
      rewrite Hd in Ho'. injection Ho' as <-. subst ent. exact (Hdir Hent).
    - exact (Hd' Hb'). }
  intros q Hq. apply HI. right. exact Hq.
Qed.

(** C10: a path is pushed only for an entry that [readdir] reports as [DT_DIR],
    and every visited node is the root or such a pushed path. Hence, when entry
    names carry no ['/'] (as [readdir] guarantees), an entry [n] of a directory
    [d] that is not listed as [DT_DIR] (a symlink, [DT_UNKNOWN], ...) is never
    pushed, and no path at or below [d/n] is ever visited (unless the walk
    starts there). In [env_untyped] the entries [l] ([DT_LNK]) and [u]
    ([DT_UNKNOWN]) are directories that open, [/r/l] has a subdirectory [x],
    and the walk visits [/r] alone. *)
Theorem walker_pushes_only_dt_dir : forall fuel e root file_name count,
  let tr := ws_trace (trigger_existing_cgroup_probe fuel e root file_name count) in
  Forall (fun dn => exists ents, opendir e (fst dn) = Some ents
                               /\ In (mk_dirent (snd dn) DT_DIR) ents) (pushes tr)
  /\ Forall (fun p => p = root \/ exists d n, In (d, n) (pushes tr) /\ p = path_join d n)
       (popped tr)
  /\ ((forall d' ents' ent, opendir e d' = Some ents' -> In ent ents' ->
        no_slash (d_name ent) = true) ->
      forall d ents n ty, opendir e d = Some ents -> In (mk_dirent n ty) ents ->
      ~ In (mk_dirent n DT_DIR) ents -> ~ below (path_join d n) root ->
      ~ In (d, n) (pushes tr) /\ Forall (fun q => ~ below (path_join d n) q) (popped tr))
  /\ popped (ws_trace (trigger_existing_cgroup_probe 10 env_untyped "/r"
                         "cgroup.clone_children" 0)) = ["/r"].
Proof.
  intros fuel e root file_name count tr.
  assert (P1 : Forall (fun dn => exists ents, opendir e (fst dn) = Some ents
                               /\ In (mk_dirent (snd dn) DT_DIR) ents) (pushes tr)).
  { apply Forall_forall. intros [d n] H. apply in_pushes in H. simpl.
    revert d n H. subst tr. unfold trigger_existing_cgroup_probe.
    apply (walk_invariant (fun st => forall d n, In (W_push d n) (ws_trace st) ->
             exists ents, opendir e d = Some ents /\ In (mk_dirent n DT_DIR) ents)).
    2: { intros d n []. }
    intros st d' rest Hs Hinv d n Hn.
    destruct (walk_step_events e file_name st d' rest Hs) as [l [E Hl]].
    rewrite E, in_app_iff in Hn. destruct Hn as [Hn|Hn]; [exact (Hinv d n Hn)|].
    destruct (Hl _ Hn) as [H|[H|[[ok H]|[[ok H]|[H|[H|[n' [ents [H [Ho [_ [Hd _]]]]]]]]]]]];
      try discriminate H.
    injection H as -> ->. eauto. }
  split; [exact P1|]. split.
  - apply Forall_forall. intros p Hp. apply in_popped in Hp.
    cut (p = root \/ exists d n, In (W_push d n) tr /\ p = path_join d n).
    { intros [H|[d [n [H1 H2]]]]; [auto|]. right. exists d, n.
      rewrite in_pushes. auto. }
    revert p Hp. subst tr. unfold trigger_existing_cgroup_probe.
    set (Inv := fun st => forall p,
             In p (ws_stack st) \/ In (W_pop p) (ws_trace st) ->
             p = root \/ exists d n, In (W_push d n) (ws_trace st) /\ p = path_join d n).
    assert (HI : Inv (walk fuel e file_name (mk_wstate [root] count []))).
    2: { intros p Hp. exact (HI p (or_intror Hp)). }
    apply walk_invariant.
    2: { unfold Inv. simpl. intros p [[<-|[]]|[]]. auto. }
    unfold Inv.
    intros st d' rest Hs Hinv p Hp.
    assert (Mono : forall ev, In ev (ws_trace st) ->
                   In ev (ws_trace (walk_step e file_name st))).
    { destruct (walk_step_events e file_name st d' rest Hs) as [l [E _]].
      intros ev Hev. rewrite E. apply in_or_app. auto. }
    assert (Old : forall q, In q (ws_stack st) \/ In (W_pop q) (ws_trace st) ->
                  q = root \/ exists d n, In (W_push d n) (ws_trace (walk_step e file_name st))
                                          /\ q = path_join d n).
    { intros q Hq. destruct (Hinv q Hq) as [H|[d [n [H1 H2]]]]; [auto|].
      right. exists d, n. auto. }
    destruct (walk_step_cases e file_name st d' rest Hs)
      as [[_ E]|[[ents [_ [_ E]]]|[ents [_ [_ E]]]]]; rewrite E in Hp; simpl in Hp;
      rewrite ?in_app_iff in Hp; simpl in Hp.
    all: repeat destruct Hp as [Hp|Hp]; try discriminate Hp; try contradiction.
    all: rewrite ?in_app_iff in Hp; simpl in Hp;
      repeat destruct Hp as [Hp|Hp]; try discriminate Hp; try contradiction.
    all: first
      [ solve [apply Old; rewrite Hs; simpl; auto]
      | solve [injection Hp as Hp; subst; apply Old; rewrite Hs; simpl; auto]
      | solve [apply in_entries_trace in Hp as [H|[n [H _]]]; discriminate H]
      | apply in_rev in Hp; apply in_map_iff in Hp as [n [<- Hn]];
        right; exists d', n; split; [|reflexivity];
        pose proof (in_subdirs_entries_trace d' ents n Hn);
        rewrite E; simpl; rewrite !in_app_iff; simpl; rewrite !in_app_iff; tauto ].
  - split; [|vm_compute; reflexivity].
    intros Hns d ents n ty Hd Hin Hdir Hroot. split.
    + intros Hp. rewrite Forall_forall in P1. destruct (P1 _ Hp) as [ents' [Hd' Hin']].
      simpl in Hd', Hin'. rewrite Hd in Hd'. injection Hd' as <-. exact (Hdir Hin').
    + apply Forall_forall.
      exact (walker_avoids_unlisted_subtree fuel e root file_name count d ents n ty
               Hns Hd Hin Hdir Hroot).
Qed.

Lemma failed_closes_app : forall l m,
  failed_closes (l ++ m) = failed_closes l + failed_closes m.
Proof. intros. unfold failed_closes. rewrite filter_app, length_app. reflexivity. Qed.

Lemma failed_closes_entries_trace : forall d ents, failed_closes (entries_trace d ents) = 0.
Proof.
  intros d ents. induction ents as [|[n ty] rest IH]; [reflexivity|].
  unfold entries_trace in *. simpl. rewrite failed_closes_app, IH.
  destruct ty; simpl; try reflexivity.
  destruct ((n =? ".")%string || (n =? "..")%string); reflexivity.
Qed.

Lemma count_close_failed : forall ok c d,
  count_close ok c = c + failed_closes [W_closedir d ok].
Proof. intros [|] c d; unfold failed_closes, count_close; simpl; lia. Qed.

Lemma walk_step_with_closedir : forall e c file_name st1 st2,
  ws_stack st1 = ws_stack st2 ->
  map erase_close (ws_trace st1) = map erase_close (ws_trace st2) ->
  ws_stack (walk_step (with_closedir e c) file_name st1) = ws_stack (walk_step e file_name st2)
  /\ map erase_close (ws_trace (walk_step (with_closedir e c) file_name st1))
     = map erase_close (ws_trace (walk_step e file_name st2)).
Proof.
  intros e c file_name st1 st2 Hs Ht. unfold walk_step. rewrite Hs.
  destruct (ws_stack st2) as [|d rest] eqn:E2; [split; [congruence|exact Ht]|]. simpl.
  destruct (opendir e d) as [ents|]; simpl.
  - destruct (ifstream_ok e (path_join d file_name)); simpl.
    + rewrite !push_entries_eq. simpl. rewrite !map_app, Ht. auto.
    + rewrite !map_app, Ht. auto.
  - rewrite !map_app, Ht. auto.
Qed.

(** C6: the counter ends at its initial value plus the number of failed
    [closedir] calls of the run (one per failure, none per success), so it never
    decreases; and whatever [closedir] reports, the run visits, opens and pushes
    exactly the same things (the trace agrees up to the reported close
    outcomes, and so does the stack). *)
Theorem close_error_count_tracks_failures :
  forall fuel e root file_name count (c : string -> bool),
  let w := trigger_existing_cgroup_probe fuel e root file_name count in
  ws_count w = count + failed_closes (ws_trace w)
  /\ count <= ws_count w
  /\ ws_stack (trigger_existing_cgroup_probe fuel (with_closedir e c) root file_name count)
     = ws_stack w
  /\ map erase_close (ws_trace (trigger_existing_cgroup_probe fuel (with_closedir e c)
                                  root file_name count))
     = map erase_close (ws_trace w).
Proof.
  intros fuel e root file_name count c w.
  assert (Hc : ws_count w = count + failed_closes (ws_trace w)).
  { subst w. unfold trigger_existing_cgroup_probe.
    apply (walk_invariant (fun st => ws_count st = count + failed_closes (ws_trace st))).
    2: { unfold failed_closes. simpl. lia. }
    intros st d rest Hs Hinv.
    destruct (walk_step_cases e file_name st d rest Hs)
      as [[_ E]|[[ents [_ [_ E]]]|[ents [_ [_ E]]]]]; rewrite E; cbn [ws_count ws_trace];
      rewrite ?(count_close_failed _ _ d), ?failed_closes_app, ?failed_closes_entries_trace;
      rewrite Hinv; unfold failed_closes; simpl; lia. }
  split; [exact Hc|]. split; [lia|].
  subst w. unfold trigger_existing_cgroup_probe.
  generalize (mk_wstate [root] count []) as st.
  intros st. cut (forall st1 st2, ws_stack st1 = ws_stack st2 ->
                    map erase_close (ws_trace st1) = map erase_close (ws_trace st2) ->
                    ws_stack (walk fuel (with_closedir e c) file_name st1)
                      = ws_stack (walk fuel e file_name st2)
                    /\ map erase_close (ws_trace (walk fuel (with_closedir e c) file_name st1))
                       = map erase_close (ws_trace (walk fuel e file_name st2))).
  { intros H. apply H; reflexivity. }
  clear Hc. induction fuel as [|n IH]; intros st1 st2 Hs Ht; simpl; [auto|].
  destruct (walk_step_with_closedir e c file_name st1 st2 Hs Ht) as [H1 H2].
  rewrite Hs. destruct (ws_stack st2) eqn:E2; [split; [congruence|exact Ht]|].
  apply IH; assumption.
Qed.

Lemma strings_eqb_eq : forall l m, strings_eqb l m = true -> l = m.
Proof.
  induction l as [|a l IH]; intros [|b m] H; simpl in H; try discriminate; [reflexivity|].
  apply andb_prop in H as [H1 H2]. apply String.eqb_eq in H1. subst b.
  f_equal. apply IH. exact H2.
Qed.

Lemma flat_map_rev_perm : forall (A B : Type) (f : A -> list B) (l : list A),
  Permutation (flat_map f (rev l)) (flat_map f l).
Proof.
  intros A B f l. induction l as [|a l IH]; [reflexivity|].
  simpl. rewrite flat_map_app. simpl. rewrite app_nil_r.
  rewrite Permutation_app_comm. apply Permutation_app_head. exact IH.
Qed.

(** The walk run on a stack holding the roots of a forest of well-formed
    hierarchies pops each node of the forest once and ends with an empty
    stack. *)
Lemma walk_forest : forall e file_name fuel ts st,
  forallb (tree_ok e file_name) ts = true ->
  ws_stack st = map troot ts ->
  List.length (flat_map tnodes ts) <= fuel ->
  ws_stack (walk fuel e file_name st) = [] /\
  exists l, ws_trace (walk fuel e file_name st) = ws_trace st ++ l
            /\ Permutation (popped l) (flat_map tnodes ts).
Proof.
  intros e file_name fuel. induction fuel as [|n IH]; intros ts st Hok Hs Hlen.
  - destruct ts as [|[p ks] ts']; [|simpl in Hlen; lia].
    simpl. split; [exact Hs|]. exists []. rewrite app_nil_r. auto.
  - destruct ts as [|[p ks] ts'].
    + simpl in Hs |- *. rewrite Hs. split; [exact Hs|]. exists []. rewrite app_nil_r. auto.
    + simpl in Hok. apply andb_prop in Hok as [Ht Hok'].
      simpl in Ht. destruct (opendir e p) as [ents|] eqn:Eo; [|discriminate].
      apply andb_prop in Ht as [Ht Hks]. apply andb_prop in Ht as [Hi Hsub].
      apply strings_eqb_eq in Hsub.
      simpl in Hs. simpl. rewrite Hs.
      destruct (walk_step_cases e file_name st p (map troot ts') Hs)
        as [[Ho _]|[[ents' [Ho [Hi' _]]]|[ents' [Ho [_ E]]]]]; try congruence.
      rewrite Eo in Ho. injection Ho as <-.
      assert (Hperm : Permutation (flat_map tnodes (rev ks ++ ts'))
                                  (flat_map tnodes ks ++ flat_map tnodes ts')).
      { rewrite flat_map_app. apply Permutation_app_tail. apply flat_map_rev_perm. }
      destruct (IH (rev ks ++ ts') (walk_step e file_name st)) as [Hst [l [Hl Hp]]].
      * rewrite forallb_app, Hok', andb_true_r. apply forallb_forall.
        intros k Hk. apply in_rev in Hk. rewrite forallb_forall in Hks. auto.
      * rewrite E. simpl. rewrite Hsub, map_app, map_rev. reflexivity.
      * rewrite (Permutation_length Hperm). simpl in Hlen.
        rewrite length_app in Hlen |- *. lia.
      * split; [exact Hst|]. rewrite Hl, E. simpl.
        eexists. split; [rewrite <- !app_assoc; reflexivity|].
        rewrite !popped_app, !popped_cons, !popped_app, popped_entries_trace. simpl.
        apply perm_skip. rewrite Hp. exact Hperm.
Qed.

(** Induction on hierarchies, with a hypothesis for every child. *)
Lemma cgtree_ind_in : forall (P : cgtree -> Prop),
  (forall p ks, (forall k, In k ks -> P k) -> P (Node p ks)) -> forall t, P t.
Proof.
  intros P H.
  assert (G : forall n t, List.length (tnodes t) <= n -> P t).
  { induction n as [|n IH]; intros [p ks] Hl; simpl in Hl; [lia|].
    apply H. intros k Hk. apply IH.
    apply in_split in Hk as [l1 [l2 ->]]. rewrite flat_map_app in Hl. simpl in Hl.
    rewrite !length_app in Hl. lia. }
  intros t. exact (G _ t (le_n _)).
Qed.

Lemma NoDup_app_disjoint : forall (A : Type) (l m : list A) x,
  NoDup (l ++ m) -> In x l -> In x m -> False.
Proof.
  intros A l m x. induction l as [|a l IH]; intros H Hl Hm; [destruct Hl|].
  simpl in H. apply NoDup_cons_iff in H as [Ha H].
  destruct Hl as [<-|Hl]; [apply Ha, in_or_app; right; exact Hm|exact (IH H Hl Hm)].
Qed.

Lemma NoDup_flat_map_same : forall (A B : Type) (f : A -> list B) l a b x,
  NoDup (flat_map f l) -> In a l -> In b l -> In x (f a) -> In x (f b) -> a = b.
Proof.
  intros A B f l a b x. induction l as [|c l IH]; intros H Ha Hb Hxa Hxb; [destruct Ha|].
  simpl in H. destruct Ha as [Ha|Ha]; destruct Hb as [Hb|Hb]; subst.
  - reflexivity.
  - exfalso. eapply NoDup_app_disjoint; [exact H|exact Hxa|apply in_flat_map; eauto].
  - exfalso. eapply NoDup_app_disjoint; [exact H|exact Hxb|apply in_flat_map; eauto].
  - exact (IH (NoDup_app_remove_l _ _ H) Ha Hb Hxa Hxb).
Qed.

Lemma NoDup_flat_map_in : forall (A B : Type) (f : A -> list B) l a,
  NoDup (flat_map f l) -> In a l -> NoDup (f a).
Proof.
  intros A B f l a H Ha. apply in_split in Ha as [l1 [l2 ->]].
  rewrite flat_map_app in H. simpl in H.
  apply NoDup_app_remove_l in H. apply NoDup_app_remove_r in H. exact H.
Qed.

Lemma tvisited_incl : forall e file_name t q,
  In q (tvisited e file_name t) -> In q (tnodes t).
Proof.
  intros e file_name.
  apply (cgtree_ind_in (fun t => forall q, In q (tvisited e file_name t) -> In q (tnodes t))).
  intros p ks IH q Hq. simpl in Hq |- *. destruct Hq as [<-|Hq]; [left; reflexivity|right].
  destruct (node_open e file_name p); [|destruct Hq].
  apply in_flat_map in Hq as [k [Hk Hq]]. apply in_flat_map. exists k. split; auto.
Qed.

Lemma subtree_incl : forall t d ks, In (Node d ks) (subtrees t) ->
  forall q, In q (flat_map tnodes ks) -> In q (tnodes t).
Proof.
  apply (cgtree_ind_in (fun t => forall d ks, In (Node d ks) (subtrees t) ->
           forall q, In q (flat_map tnodes ks) -> In q (tnodes t))).
  intros p ks0 IH d ks Hin q Hq. simpl in Hin |- *. right.
  destruct Hin as [Heq|Hin].
  - injection Heq as _ ->. exact Hq.
  - apply in_flat_map in Hin as [k [Hk Hin]]. apply in_flat_map.
    exists k. split; [exact Hk|]. exact (IH k Hk d ks Hin q Hq).
Qed.

(** In a hierarchy with distinct paths, no descendant of a node that fails to
    open is among the nodes whose proper ancestors all open. *)
Lemma pruned_descendants_not_visited : forall e file_name t,
  NoDup (tnodes t) -> forall d ks, In (Node d ks) (subtrees t) ->
  node_open e file_name d = false ->
  forall q, In q (flat_map tnodes ks) -> ~ In q (tvisited e file_name t).
Proof.
  intros e file_name.
  apply (cgtree_ind_in (fun t => NoDup (tnodes t) -> forall d ks, In (Node d ks) (subtrees t) ->
           node_open e file_name d = false ->
           forall q, In q (flat_map tnodes ks) -> ~ In q (tvisited e file_name t))).
  intros p ks0 IH Hnd d ks Hin Hd q Hq Hv.
  simpl in Hnd. apply NoDup_cons_iff in Hnd as [Hp Hnd'].
  simpl in Hin, Hv. destruct Hin as [Heq|Hin].
  - injection Heq as -> ->. rewrite Hd in Hv. destruct Hv as [->|[]]. exact (Hp Hq).
  - apply in_flat_map in Hin as [k [Hk Hin]].
    assert (Hqk : In q (tnodes k)) by exact (subtree_incl k d ks Hin q Hq).
    assert (Hq0 : In q (flat_map tnodes ks0)) by (apply in_flat_map; eauto).
    destruct Hv as [<-|Hv]; [exact (Hp Hq0)|].
    destruct (node_open e file_name p); [|destruct Hv].
    apply in_flat_map in Hv as [k' [Hk' Hv]].
    pose proof (tvisited_incl e file_name k' q Hv) as Hqk'.
    assert (k' = k) as -> by exact (NoDup_flat_map_same _ _ tnodes ks0 k' k q Hnd' Hk' Hk Hqk' Hqk).
    exact (IH k Hk (NoDup_flat_map_in _ _ tnodes ks0 k Hnd' Hk) d ks Hin Hd q Hq Hv).
Qed.

(** The walk run on a stack holding the roots of a forest in which every node
    either opens (directory and marker) and lists its children, or fails to
    open, pops exactly the nodes whose proper ancestors all open, each once. *)
Lemma walk_forest_fits : forall e file_name fuel ts st,
  forallb (tree_fits e file_name) ts = true ->
  ws_stack st = map troot ts ->
  List.length (flat_map tnodes ts) <= fuel ->
  ws_stack (walk fuel e file_name st) = [] /\
  exists l, ws_trace (walk fuel e file_name st) = ws_trace st ++ l
            /\ Permutation (popped l) (flat_map (tvisited e file_name) ts).
Proof.
  intros e file_name fuel. induction fuel as [|n IH]; intros ts st Hok Hs Hlen.
  - destruct ts as [|[p ks] ts']; [|simpl in Hlen; lia].
    simpl. split; [exact Hs|]. exists []. rewrite app_nil_r. auto.
  - destruct ts as [|[p ks] ts'].
    + simpl in Hs |- *. rewrite Hs. split; [exact Hs|]. exists []. rewrite app_nil_r. auto.
    + simpl in Hok. apply andb_prop in Hok as [Ht Hok'].
      simpl in Hs. simpl. rewrite Hs.
      assert (Hlen' : List.length (flat_map tnodes ts') <= n)
        by (simpl in Hlen; rewrite length_app in Hlen; lia).
      destruct (walk_step_cases e file_name st p (map troot ts') Hs)
        as [[Ho E]|[[ents [Ho [Hi E]]]|[ents [Ho [Hi E]]]]].
      * destruct (IH ts' (walk_step e file_name st)) as [Hst [l [Hl Hp]]];
          [exact Hok'|rewrite E; reflexivity|exact Hlen'|].
        split; [exact Hst|]. rewrite Hl, E. simpl.
        exists ([W_yield; W_pop p; W_opendir p false] ++ l).
        split; [rewrite <- !app_assoc; reflexivity|].
        unfold node_open. rewrite Ho. rewrite popped_app. simpl. apply perm_skip. exact Hp.
      * destruct (IH ts' (walk_step e file_name st)) as [Hst [l [Hl Hp]]];
          [exact Hok'|rewrite E; reflexivity|exact Hlen'|].
        split; [exact Hst|]. rewrite Hl, E. simpl.
        exists ([W_yield; W_pop p; W_opendir p true;
                 W_open_marker (path_join p file_name) false;
                 W_closedir p (closedir_ok e p)] ++ l).
        split; [rewrite <- !app_assoc; reflexivity|].
        unfold node_open. rewrite Ho, Hi. rewrite popped_app. simpl. apply perm_skip. exact Hp.
      * simpl in Ht. rewrite Ho, Hi in Ht.
        apply andb_prop in Ht as [Hsub Hks]. apply strings_eqb_eq in Hsub.
        assert (Hperm : Permutation (flat_map (tvisited e file_name) (rev ks ++ ts'))
                          (flat_map (tvisited e file_name) ks
                           ++ flat_map (tvisited e file_name) ts')).
        { rewrite flat_map_app. apply Permutation_app_tail. apply flat_map_rev_perm. }
        assert (Hperm' : Permutation (flat_map tnodes (rev ks ++ ts'))
                                     (flat_map tnodes ks ++ flat_map tnodes ts')).
        { rewrite flat_map_app. apply Permutation_app_tail. apply flat_map_rev_perm. }
        destruct (IH (rev ks ++ ts') (walk_step e file_name st)) as [Hst [l [Hl Hp]]].
        -- rewrite forallb_app, Hok', andb_true_r. apply forallb_forall.
           intros k Hk. apply in_rev in Hk. rewrite forallb_forall in Hks. auto.
        -- rewrite E. simpl. rewrite Hsub, map_app, map_rev. reflexivity.
        -- rewrite (Permutation_length Hperm'). simpl in Hlen.
           rewrite length_app in Hlen |- *. lia.
        -- split; [exact Hst|]. rewrite Hl, E. simpl.
           exists ([W_yield; W_pop p; W_opendir p true;
                    W_open_marker (path_join p file_name) true;
                    W_getline (path_join p file_name)]
                   ++ entries_trace p ents ++ [W_closedir p (closedir_ok e p)] ++ l).
           split; [rewrite <- !app_assoc; simpl; rewrite <- !app_assoc; reflexivity|].
           unfold node_open. rewrite Ho, Hi.
           rewrite !popped_app, popped_entries_trace. simpl.
           apply perm_skip. rewrite Hp. exact Hperm.
Qed.

(** C3 (as stated, refuted): every directory node reachable from the root is
    popped. In [env_no_marker] the subdirectory [/r/c] is listed by [/r] as a
    [DT_DIR] entry and opens, but the finished walk never pops it, since the
    marker file of [/r] does not open. *)
Lemma every_reachable_node_visited_counterexample :
  let w := trigger_existing_cgroup_probe 10 env_no_marker "/r" "cgroup.clone_children" 0 in
  ws_stack w = []
  /\ opendir env_no_marker "/r" = Some (dot_entries ++ [mk_dirent "c" DT_DIR])
  /\ subdirs (dot_entries ++ [mk_dirent "c" DT_DIR]) = ["c"]
  /\ opendir env_no_marker (path_join "/r" "c") = Some dot_entries
  /\ count_occ string_dec (popped (ws_trace w)) (path_join "/r" "c") = 0.
Proof. vm_compute. repeat split. Qed.

(** C3 (amended): for every finite hierarchy in which each node either opens
    (directory and marker file) and has as children exactly its [DT_DIR]
    entries other than "." and "..", or fails to open (directory or marker
    file), the walk from its root terminates within as many iterations as
    there are nodes and pops, each once, exactly the nodes whose proper
    ancestors all open: a node that fails to open is popped, but when paths are
    distinct none of its descendants is. When every node opens, every node is
    popped exactly once, whatever the shape of the tree. *)
Theorem walker_visits_every_node_once : forall e file_name t count fuel,
  tree_fits e file_name t = true ->
  List.length (tnodes t) <= fuel ->
  let w := trigger_existing_cgroup_probe fuel e (troot t) file_name count in
  ws_stack w = []
  /\ Permutation (popped (ws_trace w)) (tvisited e file_name t)
  /\ (tree_ok e file_name t = true -> Permutation (popped (ws_trace w)) (tnodes t))
  /\ (NoDup (tnodes t) -> forall d ks, In (Node d ks) (subtrees t) ->
        node_open e file_name d = false ->
        forall q, In q (flat_map tnodes ks) -> ~ In (W_pop q) (ws_trace w)).
Proof.
  intros e file_name t count fuel Hfit Hlen w.
  destruct (walk_forest_fits e file_name fuel [t] (mk_wstate [troot t] count []))
    as [Hs [l [Hl Hp]]].
  - simpl. rewrite Hfit. reflexivity.
  - reflexivity.
  - simpl. rewrite app_nil_r. exact Hlen.
  - assert (Hpw : Permutation (popped (ws_trace w)) (tvisited e file_name t)).
    { subst w. unfold trigger_existing_cgroup_probe.
      rewrite Hl. simpl. rewrite Hp. simpl. rewrite app_nil_r. reflexivity. }
    split; [exact Hs|]. split; [exact Hpw|]. split.
    + intros Hok.
      destruct (walk_forest e file_name fuel [t] (mk_wstate [troot t] count []))
        as [_ [l' [Hl' Hp']]].
      * simpl. rewrite Hok. reflexivity.
      * reflexivity.
      * simpl. rewrite app_nil_r. exact Hlen.
      * subst w. unfold trigger_existing_cgroup_probe.
        rewrite Hl'. simpl. rewrite Hp'. simpl. rewrite app_nil_r. reflexivity.
    + intros Hnd d ks Hin Hd q Hq Hpop.
      apply (pruned_descendants_not_visited e file_name t Hnd d ks Hin Hd q Hq).
      apply (Permutation_in _ Hpw). apply in_popped. exact Hpop.
Qed.

Lemma walker_visits_every_node_once_witness :
  tree_fits env_no_marker "cgroup.clone_children" (Node "/r" [Node "/r/c" []]) = true /\
  List.length (tnodes (Node "/r" [Node "/r/c" []])) <= 10 /\
  Permutation (popped (ws_trace (trigger_existing_cgroup_probe 10 env_no_marker "/r"
                                   "cgroup.clone_children" 0)))
              (tvisited env_no_marker "cgroup.clone_children" (Node "/r" [Node "/r/c" []])) /\
  ~ In (W_pop "/r/c") (ws_trace (trigger_existing_cgroup_probe 10 env_no_marker "/r"
                                   "cgroup.clone_children" 0)).
Proof.
  assert (H1 : tree_fits env_no_marker "cgroup.clone_children" (Node "/r" [Node "/r/c" []])
               = true) by (vm_compute; reflexivity).
  assert (H2 : List.length (tnodes (Node "/r" [Node "/r/c" []])) <= 10) by (simpl; lia).
  assert (Hnd : NoDup (tnodes (Node "/r" [Node "/r/c" []]))).
  { simpl. constructor; [intros [H|[]]; discriminate H|constructor; [intros []|constructor]]. }
  split; [exact H1|]. split; [exact H2|].
  destruct (walker_visits_every_node_once env_no_marker "cgroup.clone_children"
              (Node "/r" [Node "/r/c" []]) 0 10 H1 H2) as [_ [Hp [_ Hd]]].
  split; [exact Hp|].
  apply (Hd Hnd "/r" [Node "/r/c" []]); [left; reflexivity|vm_compute; reflexivity|left; reflexivity].
Defined.

Lemma find_mountpoint_first : forall (f : string -> bool) l,
  (exists pre c post, l = pre ++ c :: post /\ f c = true
     /\ Forall (fun c' => f c' = false) pre /\ find_mountpoint f l = c)
  \/ (Forall (fun c => f c = false) l /\ find_mountpoint f l = "").
Proof.
  intros f l. induction l as [|a l IH].
  - right. split; [constructor|reflexivity].
  - simpl. destruct (f a) eqn:Ea.
    + left. exists [], a, l. auto.
    + destruct IH as [[pre [c [post [-> [Hc [Hpre Hr]]]]]]|[Hall Hr]].
      * left. exists (a :: pre), c, post. auto.
      * right. auto.
Qed.

(** C4: each locator returns the first candidate, in declared order, for which
    [candidate + "/" + marker] exists as a regular file, and "" when none does;
    when only the third v1 candidate has the marker, it is returned. *)
Theorem find_mountpoint_returns_first_match : forall e,
  ((exists pre c post, cgroup_v1_mountpoints = pre ++ c :: post
      /\ file_exists e (path_join c "cgroup.clone_children") = true
      /\ Forall (fun c' => file_exists e (path_join c' "cgroup.clone_children") = false) pre
      /\ find_cgroup_v1_mountpoint e = c)
   \/ (Forall (fun c => file_exists e (path_join c "cgroup.clone_children") = false)
         cgroup_v1_mountpoints
       /\ find_cgroup_v1_mountpoint e = ""))
  /\ ((exists pre c post, cgroup_v2_mountpoints = pre ++ c :: post
      /\ file_exists e (path_join c "cgroup.controllers") = true
      /\ Forall (fun c' => file_exists e (path_join c' "cgroup.controllers") = false) pre
      /\ find_cgroup_v2_mountpoint e = c)
   \/ (Forall (fun c => file_exists e (path_join c "cgroup.controllers") = false)
         cgroup_v2_mountpoints
       /\ find_cgroup_v2_mountpoint e = ""))
  /\ map (fun c => file_exists env_third_v1 (path_join c "cgroup.clone_children"))
         cgroup_v1_mountpoints = [false; false; true; false]
  /\ find_cgroup_v1_mountpoint env_third_v1 = "/sys/fs/cgroup/memory".
Proof.
  intros e. split; [|split; [|split]].
  - exact (find_mountpoint_first (is_cgroup_v1_mountpoint e) cgroup_v1_mountpoints).
  - exact (find_mountpoint_first (is_cgroup_v2_mountpoint e) cgroup_v2_mountpoints).
  - vm_compute. reflexivity.
  - vm_compute. reflexivity.
Qed.

Lemma attach_first_success_first : forall attach alts,
  (fst (attach_first_success attach alts) = true
   /\ exists pre a post, alts = pre ++ a :: post
      /\ attach (alt_handler a) (alt_symbol a) = true
      /\ Forall (fun x => attach (alt_handler x) (alt_symbol x) = false) pre
      /\ snd (attach_first_success attach alts) = map (fun x => (x, false)) pre ++ [(a, true)])
  \/ (fst (attach_first_success attach alts) = false
      /\ Forall (fun x => attach (alt_handler x) (alt_symbol x) = false) alts
      /\ snd (attach_first_success attach alts) = map (fun x => (x, false)) alts).
Proof.
  intros attach alts. induction alts as [|a rest IH].
  - right. simpl. auto.
  - simpl. destruct (attach (alt_handler a) (alt_symbol a)) eqn:Ea.
    + left. split; [reflexivity|]. exists [], a, rest. auto.
    + destruct (attach_first_success attach rest) as [ok att]. simpl in IH |- *.
      destruct IH as [[-> [pre [b [post [-> [Hb [Hpre Hatt]]]]]]]|[-> [Hall ->]]].
      * left. split; [reflexivity|]. exists (a :: pre), b, post.
        subst att. auto.
      * right. auto.
Qed.

(** C5 (spec-modelled attachment): alternatives are attempted in declared order
    and the attempts stop at the first that attaches; in the "kill css" set,
    when the first fails and the second attaches, exactly those two are
    attempted and the third is not. *)
Theorem probe_alternatives_stop_at_first_success :
  forall (attach : string -> string -> bool),
  (forall alts,
     (fst (attach_first_success attach alts) = true
      /\ exists pre a post, alts = pre ++ a :: post
         /\ attach (alt_handler a) (alt_symbol a) = true
         /\ Forall (fun x => attach (alt_handler x) (alt_symbol x) = false) pre
         /\ snd (attach_first_success attach alts) = map (fun x => (x, false)) pre ++ [(a, true)])
     \/ (fst (attach_first_success attach alts) = false
         /\ Forall (fun x => attach (alt_handler x) (alt_symbol x) = false) alts
         /\ snd (attach_first_success attach alts) = map (fun x => (x, false)) alts))
  /\ snd (attach_first_success attach (alts_list kill_kss_probe_alternatives)) =
     if attach "on_kill_css" "kill_css" then [(mk_alt "on_kill_css" "kill_css", true)]
     else if attach "on_kill_css" "css_clear_dir" then
       [(mk_alt "on_kill_css" "kill_css", false); (mk_alt "on_kill_css" "css_clear_dir", true)]
     else
       [(mk_alt "on_kill_css" "kill_css", false); (mk_alt "on_kill_css" "css_clear_dir", false);
        (mk_alt "on_cgroup_destroy_locked" "cgroup_destroy_locked",
         attach "on_cgroup_destroy_locked" "cgroup_destroy_locked")].
Proof.
  intros attach. split.
  - apply attach_first_success_first.
  - simpl. destruct (attach "on_kill_css" "kill_css"); [reflexivity|].
    destruct (attach "on_kill_css" "css_clear_dir"); [reflexivity|].
    destruct (attach "on_cgroup_destroy_locked" "cgroup_destroy_locked"); reflexivity.
Qed.

(** C9: backfilling [/t/cgA] (child [/t/cgA/cgA1], both with
    [cgroup.clone_children], every close succeeding) finishes, opens each of
    the two marker files exactly once, and leaves the close-error counter at
    zero. *)
Theorem backfill_cgA_opens_each_marker_once :
  let w := trigger_existing_cgroup_probe 2 env_cgA "/t/cgA" "cgroup.clone_children" 0 in
  ws_stack w = []
  /\ marker_opens (ws_trace w) =
       ["/t/cgA/cgroup.clone_children"; "/t/cgA/cgA1/cgroup.clone_children"]
  /\ ws_count w = 0.
Proof. vm_compute. repeat split. Qed.

(** The trace of a finished constructor run, phase by phase. *)
Lemma CgroupProber_shape : forall fuel e kernel_version p,
  CgroupProber fuel e kernel_version = Some p ->
  exists v1 v2,
    p_trace p =
      start_probe_alternatives e kill_kss_probe_alternatives ++ [P_periodic]
      ++ start_probe_alternatives e css_populate_dir_probe_alternatives ++ [P_periodic]
      ++ [P_start_probe "on_cgroup_clone_children_read" "cgroup_clone_children_read";
          P_start_probe "on_cgroup_attach_task" "cgroup_attach_task";
          P_periodic; P_check "cgroup prober startup";
          P_find_mountpoint 1 (find_cgroup_v1_mountpoint e)]
      ++ v1 ++ [P_cleanup_probe "cgroup_clone_children_read"]
      ++ v2 ++ [P_periodic; P_check "cgroup prober cleanup()"]
    /\ (v1 = [] \/ exists tr, v1 = map (P_walk "cgroup.clone_children") tr
                                    ++ [P_check "trigger_cgroup_clone_children_read()"])
    /\ ((string_ge kernel_version cgroup_v2_first_kernel_version = false /\ v2 = [])
        \/ (string_ge kernel_version cgroup_v2_first_kernel_version = true
            /\ exists v2b, v2 = [P_start_probe "on_cgroup_control" "cgroup_control";
                                 P_start_kretprobe "onret_cgroup_control" "cgroup_control";
                                 P_find_mountpoint 2 (find_cgroup_v2_mountpoint e)]
                                ++ v2b ++ [P_cleanup_kretprobe "cgroup_control";
                                           P_cleanup_probe "cgroup_control"]
               /\ (v2b = [] \/ exists tr, v2b = map (P_walk "cgroup.controllers") tr
                                                 ++ [P_check "trigger_cgroup_control()"]))).
Proof.
  intros fuel e kernel_version p H. unfold CgroupProber, obind, backfill in H.
  cbn [emit p_count p_trace] in H.
  set (v2h := [P_start_probe "on_cgroup_control" "cgroup_control";
               P_start_kretprobe "onret_cgroup_control" "cgroup_control";
               P_find_mountpoint 2 (find_cgroup_v2_mountpoint e)]) in *.
  set (v2t := [P_cleanup_kretprobe "cgroup_control"; P_cleanup_probe "cgroup_control"]) in *.
  destruct (negb (string_empty (find_cgroup_v1_mountpoint e))).
  - destruct (trigger_existing_cgroup_probe fuel e (find_cgroup_v1_mountpoint e)
                "cgroup.clone_children" 0) as [[|? ?] c1 tr1]; simpl in H; [|discriminate].
    set (v1 := map (P_walk "cgroup.clone_children") tr1
               ++ [P_check "trigger_cgroup_clone_children_read()"]).
    destruct (string_ge kernel_version cgroup_v2_first_kernel_version) eqn:G.
    + destruct (negb (string_empty (find_cgroup_v2_mountpoint e))).
      * destruct (trigger_existing_cgroup_probe fuel e (find_cgroup_v2_mountpoint e)
                    "cgroup.controllers" c1) as [[|? ?] c2 tr2]; simpl in H; [|discriminate].
        set (v2b := map (P_walk "cgroup.controllers") tr2 ++ [P_check "trigger_cgroup_control()"]).
        injection H as <-. exists v1, (v2h ++ v2b ++ v2t). split.
        { cbn [emit p_trace]. subst v1 v2b. rewrite <- !app_assoc. reflexivity. }
        split; [right; exists tr1; reflexivity|].
        right. split; [reflexivity|]. exists v2b. split; [reflexivity|].
        right. exists tr2. reflexivity.
      * injection H as <-. exists v1, (v2h ++ [] ++ v2t). split.
        { cbn [emit p_trace]. subst v1. rewrite <- !app_assoc. reflexivity. }
        split; [right; exists tr1; reflexivity|].
        right. split; [reflexivity|]. exists []. split; [reflexivity|]. left. reflexivity.
    + injection H as <-. exists v1, []. split.
      { cbn [emit p_trace]. subst v1. rewrite <- !app_assoc. reflexivity. }
      split; [right; exists tr1; reflexivity|]. left. auto.
  - cbn [emit p_count p_trace] in H.
    destruct (string_ge kernel_version cgroup_v2_first_kernel_version) eqn:G.
    + destruct (negb (string_empty (find_cgroup_v2_mountpoint e))).
      * destruct (trigger_existing_cgroup_probe fuel e (find_cgroup_v2_mountpoint e)
                    "cgroup.controllers" 0) as [[|? ?] c2 tr2]; simpl in H; [|discriminate].
        set (v2b := map (P_walk "cgroup.controllers") tr2 ++ [P_check "trigger_cgroup_control()"]).
        injection H as <-. exists [], (v2h ++ v2b ++ v2t). split.
        { cbn [emit p_trace]. subst v2b. rewrite <- !app_assoc. reflexivity. }
        split; [left; reflexivity|].
        right. split; [reflexivity|]. exists v2b. split; [reflexivity|].
        right. exists tr2. reflexivity.
      * injection H as <-. exists [], (v2h ++ [] ++ v2t). split.
        { cbn [emit p_trace]. rewrite <- !app_assoc. reflexivity. }
        split; [left; reflexivity|].
        right. split; [reflexivity|]. exists []. split; [reflexivity|]. left. reflexivity.
    + injection H as <-. exists [], []. split.
      { cbn [emit p_trace]. rewrite <- !app_assoc. reflexivity. }
      split; [left; reflexivity|]. left. auto.
Qed.

Lemma in_start_probe_alternatives : forall e alts ev,
  In ev (start_probe_alternatives e alts) -> exists h s ok, ev = P_attach h s ok.
Proof.
  intros e alts ev H. unfold start_probe_alternatives in H.
  apply in_map_iff in H as [[a ok] [<- _]]. eauto.
Qed.

Ltac split_in H :=
  repeat match type of H with
  | In _ (_ ++ _) => apply in_app_iff in H; destruct H as [H|H]
  | In _ (_ :: _) => destruct H as [H|H]
  | In _ [] => destruct H
  | In _ (map _ _) => let x := fresh "x" in apply in_map_iff in H; destruct H as [x [H _]]
  | In _ (start_probe_alternatives _ _) =>
      let h := fresh "h" in let s := fresh "s" in let ok := fresh "ok" in
      apply in_start_probe_alternatives in H; destruct H as [h [s [ok H]]]
  end.

(** C7: in every finished constructor run, whether or not a v1 mountpoint was
    found and whatever the kernel version, the probe on
    [cgroup_clone_children_read] is detached exactly once; every v1 backfill
    effect comes before the detach, and every effect of the v2 phase after it. *)
Theorem v1_trigger_detached_between_phases : forall fuel e kernel_version p,
  CgroupProber fuel e kernel_version = Some p ->
  exists pre post,
    p_trace p = pre ++ P_cleanup_probe "cgroup_clone_children_read" :: post
    /\ Forall (fun ev => is_v2_event ev = false
                         /\ ev <> P_cleanup_probe "cgroup_clone_children_read") pre
    /\ Forall (fun ev => is_v1_backfill_event ev = false
                         /\ ev <> P_cleanup_probe "cgroup_clone_children_read") post.
Proof.
  intros fuel e kernel_version p H.
  destruct (CgroupProber_shape fuel e kernel_version p H) as [v1 [v2 [Htr [Hv1 Hv2]]]].
  exists (start_probe_alternatives e kill_kss_probe_alternatives ++ [P_periodic]
          ++ start_probe_alternatives e css_populate_dir_probe_alternatives ++ [P_periodic]
          ++ [P_start_probe "on_cgroup_clone_children_read" "cgroup_clone_children_read";
              P_start_probe "on_cgroup_attach_task" "cgroup_attach_task";
              P_periodic; P_check "cgroup prober startup";
              P_find_mountpoint 1 (find_cgroup_v1_mountpoint e)] ++ v1),
         (v2 ++ [P_periodic; P_check "cgroup prober cleanup()"]).
  split.
  { rewrite Htr. rewrite <- !app_assoc. reflexivity. }
  split; apply Forall_forall; intros ev Hin.
  - destruct Hv1 as [->|[tr ->]]; split_in Hin; subst ev;
      split; (reflexivity || discriminate).
  - destruct Hv2 as [[_ ->]|[_ [v2b [-> [->|[tr ->]]]]]]; split_in Hin; subst ev;
      split; (reflexivity || discriminate).
Qed.

(** C2 (code bug): the version gate compares the release strings as
    [std::string]s, so kernels 4.10 to 4.19 and 10.0 compare below "4.6" and the
    whole v2 phase is skipped for them. *)
Theorem kernel_gate_skips_v2_on_later_kernels : forall kernel_version fuel e p,
  In kernel_version ["4.10"; "4.14.0-1-generic"; "4.19.0"; "10.0"] ->
  CgroupProber fuel e kernel_version = Some p ->
  v2_phase_attempted (p_trace p) = false.
Proof.
  intros kernel_version fuel e p Hk H.
  destruct (CgroupProber_shape fuel e kernel_version p H) as [v1 [v2 [Htr [Hv1 Hv2]]]].
  assert (G : string_ge kernel_version cgroup_v2_first_kernel_version = false).
  { simpl in Hk. destruct Hk as [<-|[<-|[<-|[<-|[]]]]]; reflexivity. }
  destruct Hv2 as [[_ ->]|[G' _]]; [|rewrite G in G'; discriminate G'].
  apply not_true_iff_false. intros Hx. unfold v2_phase_attempted in Hx.
  apply existsb_exists in Hx as [ev [Hin Hv]]. rewrite Htr in Hin.
  destruct Hv1 as [->|[tr ->]]; split_in Hin; subst ev;
    cbv [is_v2_event] in Hv; discriminate Hv.
Qed.

Lemma kernel_gate_skips_v2_on_later_kernels_witness :
  exists p, CgroupProber 2 env_hybrid "4.19.0" = Some p
            /\ find_cgroup_v2_mountpoint env_hybrid = "/sys/fs/cgroup"
            /\ v2_phase_attempted (p_trace p) = false.
Proof.
  eexists. split; [vm_compute; reflexivity|]. split; [vm_compute; reflexivity|].
  match goal with |- v2_phase_attempted (p_trace ?p) = false =>
    apply (kernel_gate_skips_v2_on_later_kernels "4.19.0" 2 env_hybrid p) end.
  - simpl. auto 6.
  - vm_compute. reflexivity.
Defined.

Lemma v1_trigger_detached_between_phases_witness :
  exists p, CgroupProber 2 env_hybrid "5.4.0" = Some p /\
  exists pre post,
    p_trace p = pre ++ P_cleanup_probe "cgroup_clone_children_read" :: post
    /\ Forall (fun ev => is_v2_event ev = false
                         /\ ev <> P_cleanup_probe "cgroup_clone_children_read") pre
    /\ Forall (fun ev => is_v1_backfill_event ev = false
                         /\ ev <> P_cleanup_probe "cgroup_clone_children_read") post.
Proof.
  eexists. split; [vm_compute; reflexivity|].
  match goal with |- exists pre post, p_trace ?p = _ /\ _ =>
    apply (v1_trigger_detached_between_phases 2 env_hybrid "5.4.0" p) end.
  vm_compute. reflexivity.
Defined.

(** * Further properties of the walker *)

Lemma count_ev_app : forall (A : Type) (f : A -> bool) l m,
  count_ev f (l ++ m) = count_ev f l + count_ev f m.
Proof. intros. unfold count_ev. rewrite filter_app, length_app. reflexivity. Qed.

Lemma count_ev_entries_trace : forall f d ents,
  f W_yield = false -> (forall n, f (W_push d n) = false) ->
  count_ev f (entries_trace d ents) = 0.
Proof.
  intros f d ents Hy Hp. induction ents as [|[n ty] rest IH]; [reflexivity|].
  unfold entries_trace in *. simpl. rewrite count_ev_app, IH.
  unfold count_ev. destruct ty; simpl; rewrite ?Hy; try reflexivity.
  destruct ((n =? ".")%string || (n =? "..")%string); simpl; rewrite ?Hp, ?Hy; reflexivity.
Qed.

Lemma rev_flat_map_eq : forall (A B : Type) (f : A -> list B) l,
  rev_flat_map f l = flat_map f (rev l).
Proof.
  intros A B f l. induction l as [|x l IH]; [reflexivity|].
  simpl. rewrite IH, flat_map_app. simpl. rewrite app_nil_r. reflexivity.
Qed.

Lemma marker_opens_app : forall l m, marker_opens (l ++ m) = marker_opens l ++ marker_opens m.
Proof. intros. unfold marker_opens. apply flat_map_app. Qed.

Lemma marker_opens_cons : forall ev l,
  marker_opens (ev :: l) = match ev with W_open_marker p _ => [p] | _ => [] end ++ marker_opens l.
Proof. reflexivity. Qed.

Lemma marker_opens_entries_trace : forall d ents, marker_opens (entries_trace d ents) = [].
Proof.
  intros d ents. induction ents as [|[n ty] rest IH]; [reflexivity|].
  unfold entries_trace in *. simpl. rewrite marker_opens_app, IH, app_nil_r.
  destruct ty; simpl; try reflexivity.
  destruct ((n =? ".")%string || (n =? "..")%string); reflexivity.
Qed.

Lemma string_length_app : forall a b : string,
  String.length (a ++ b) = String.length a + String.length b.
Proof. induction a as [|c a IH]; intros b; simpl; [reflexivity|rewrite IH; reflexivity]. Qed.

Lemma string_app_cancel_r : forall a b c : string, (a ++ c)%string = (b ++ c)%string -> a = b.
Proof.
  induction a as [|ch a IH]; intros [|ch' b] c H; simpl in H.
  - reflexivity.
  - exfalso. apply (f_equal String.length) in H. simpl in H.
    rewrite string_length_app in H. lia.
  - exfalso. apply (f_equal String.length) in H. simpl in H.
    rewrite string_length_app in H. lia.
  - injection H as <- H. f_equal. exact (IH b c H).
Qed.

Lemma path_join_eqb : forall a b f,
  String.eqb (path_join a f) (path_join b f) = String.eqb a b.
Proof.
  intros a b f. destruct (String.eqb_spec a b) as [->|Ne]; [apply String.eqb_refl|].
  apply String.eqb_neq. intros H. apply Ne. exact (string_app_cancel_r _ _ _ H).
Qed.

(** X1: every directory whose [opendir] succeeds is closed exactly once, and
    no directory is closed without a successful [opendir]; the marker file of
    a directory is tried exactly as many times as that directory is opened
    successfully (so never for a directory that failed to open), and in total
    one marker is tried per successfully opened directory. *)
Theorem walker_closes_each_opened_dir_once : forall fuel e root file_name count d,
  let tr := ws_trace (trigger_existing_cgroup_probe fuel e root file_name count) in
  count_ev (is_closedir d) tr = count_ev (is_opendir_ok d) tr
  /\ count_ev (is_marker_at (path_join d file_name)) tr = count_ev (is_opendir_ok d) tr
  /\ count_ev is_marker_attempt tr = count_ev is_any_opendir_ok tr.
Proof.
  intros fuel e root file_name count d tr. subst tr.
  unfold trigger_existing_cgroup_probe.
  apply (walk_invariant (fun st =>
           count_ev (is_closedir d) (ws_trace st) = count_ev (is_opendir_ok d) (ws_trace st)
           /\ count_ev (is_marker_at (path_join d file_name)) (ws_trace st)
              = count_ev (is_opendir_ok d) (ws_trace st)
           /\ count_ev is_marker_attempt (ws_trace st)
              = count_ev is_any_opendir_ok (ws_trace st))); [|split; [|split]; reflexivity].
  intros st d' rest Hs [H1 [H2 H3]].
  destruct (walk_step_cases e file_name st d' rest Hs)
    as [[_ E]|[[ents [_ [_ E]]]|[ents [_ [_ E]]]]]; rewrite E; cbn [ws_trace];
    rewrite !count_ev_app;
    rewrite ?(count_ev_entries_trace (is_closedir d)),
            ?(count_ev_entries_trace (is_opendir_ok d)),
            ?(count_ev_entries_trace (is_marker_at (path_join d file_name))),
            ?(count_ev_entries_trace is_marker_attempt),
            ?(count_ev_entries_trace is_any_opendir_ok) by reflexivity;
    rewrite H1, H2, H3;
    cbn [count_ev filter List.length is_closedir is_opendir_ok is_marker_attempt
         is_any_opendir_ok is_marker_at];
    rewrite ?path_join_eqb; destruct (d' =? d)%string; cbn; lia.
Qed.

(** X2: a line is read from a marker file exactly as often as that file is
    opened successfully: never from a marker that failed to open. *)
Theorem walker_reads_only_opened_markers : forall fuel e root file_name count path,
  let tr := ws_trace (trigger_existing_cgroup_probe fuel e root file_name count) in
  count_ev (is_getline path) tr = count_ev (is_marker_ok path) tr.
Proof.
  intros fuel e root file_name count path tr. subst tr.
  unfold trigger_existing_cgroup_probe.
  apply (walk_invariant (fun st =>
           count_ev (is_getline path) (ws_trace st)
           = count_ev (is_marker_ok path) (ws_trace st))); [|reflexivity].
  intros st d rest Hs H1.
  destruct (walk_step_cases e file_name st d rest Hs)
    as [[_ E]|[[ents [_ [_ E]]]|[ents [_ [_ E]]]]]; rewrite E; cbn [ws_trace];
    rewrite !count_ev_app;
    rewrite ?(count_ev_entries_trace (is_getline path)),
            ?(count_ev_entries_trace (is_marker_ok path)) by reflexivity;
    rewrite H1; unfold count_ev; simpl;
    destruct (path_join d file_name =? path)%string; simpl; lia.
Qed.

(** X3: the walk stays inside the hierarchy it starts from: every directory
    popped is the root or a path [root/...] below it. *)
Theorem walker_stays_below_root : forall fuel e root file_name count,
  Forall (fun p => p = root \/ exists s, p = (root ++ "/" ++ s)%string)
    (popped (ws_trace (trigger_existing_cgroup_probe fuel e root file_name count))).
Proof.
  intros fuel e root file_name count.
  set (P := fun p => p = root \/ exists s, p = (root ++ "/" ++ s)%string).
  assert (Hjoin : forall d n, P d -> P (path_join d n)).
  { intros d n [->|[s ->]]; right; unfold path_join.
    - exists n. reflexivity.
    - exists (s ++ "/" ++ n)%string. rewrite !string_app_assoc. reflexivity. }
  apply Forall_forall.
  set (Inv := fun st => forall p, In p (ws_stack st) \/ In p (popped (ws_trace st)) -> P p).
  assert (HI : Inv (trigger_existing_cgroup_probe fuel e root file_name count)).
  { unfold trigger_existing_cgroup_probe. apply walk_invariant.
    2: { intros p [Hp|Hp]; simpl in Hp; [destruct Hp as [<-|[]]; left; reflexivity|destruct Hp]. }
    intros st d rest Hs Hinv p Hp.
    assert (Hd : P d) by (apply Hinv; left; rewrite Hs; left; reflexivity).
    assert (Hr : forall q, In q rest -> P q)
      by (intros q Hq; apply Hinv; left; rewrite Hs; right; exact Hq).
    assert (Ho : forall q, In q (popped (ws_trace st)) -> P q)
      by (intros q Hq; apply Hinv; right; exact Hq).
    destruct (walk_step_cases e file_name st d rest Hs)
      as [[_ E]|[[ents [_ [_ E]]]|[ents [_ [_ E]]]]]; rewrite E in Hp; cbn [ws_stack ws_trace] in Hp;
      rewrite ?popped_app, ?popped_entries_trace in Hp; simpl in Hp;
      rewrite ?in_app_iff in Hp; simpl in Hp.
    all: repeat destruct Hp as [Hp|Hp]; try contradiction; try (subst p; exact Hd); auto.
    apply in_rev, in_map_iff in Hp as [n [<- _]]. auto. }
  intros p Hp. apply HI. right. exact Hp.
Qed.

(** X4: when the root directory cannot be opened, the walk does nothing else:
    the stack is emptied, the counter is unchanged and no marker is tried. *)
Theorem walker_unopenable_root : forall fuel e root file_name count,
  0 < fuel -> opendir e root = None ->
  trigger_existing_cgroup_probe fuel e root file_name count
  = mk_wstate [] count [W_yield; W_pop root; W_opendir root false].
Proof.
  intros fuel e root file_name count Hf Ho.
  destruct fuel as [|n]; [lia|].
  unfold trigger_existing_cgroup_probe. simpl. unfold walk_step. simpl. rewrite Ho.
  destruct n; reflexivity.
Qed.

Lemma preorder_node : forall p ks,
  preorder (Node p ks) = p :: flat_map preorder (rev ks).
Proof. intros p ks. simpl. rewrite rev_flat_map_eq. reflexivity. Qed.

Lemma flat_map_tnodes_length_rev : forall ks ts,
  List.length (flat_map tnodes (rev ks ++ ts)) = List.length (flat_map tnodes (ks ++ ts)).
Proof.
  intros ks ts. apply Permutation_length. rewrite !flat_map_app.
  apply Permutation_app_tail. apply flat_map_rev_perm.
Qed.

(** The walk run on a stack holding the roots of a forest of well-formed
    hierarchies visits them in depth-first preorder, top of the stack first. *)
Lemma walk_forest_order : forall e file_name fuel ts st,
  forallb (tree_ok e file_name) ts = true ->
  ws_stack st = map troot ts ->
  List.length (flat_map tnodes ts) <= fuel ->
  exists l, ws_trace (walk fuel e file_name st) = ws_trace st ++ l
            /\ popped l = flat_map preorder ts
            /\ marker_opens l = map (fun p => path_join p file_name) (flat_map preorder ts).
Proof.
  intros e file_name fuel. induction fuel as [|n IH]; intros ts st Hok Hs Hlen.
  - destruct ts as [|[p ks] ts']; [|simpl in Hlen; lia].
    exists []. simpl. rewrite app_nil_r. auto.
  - destruct ts as [|[p ks] ts'].
    + simpl in Hs |- *. rewrite Hs. exists []. rewrite app_nil_r. auto.
    + simpl in Hok. apply andb_prop in Hok as [Ht Hok'].
      simpl in Ht. destruct (opendir e p) as [ents|] eqn:Eo; [|discriminate].
      apply andb_prop in Ht as [Ht Hks]. apply andb_prop in Ht as [Hi Hsub].
      apply strings_eqb_eq in Hsub.
      simpl in Hs. simpl. rewrite Hs.
      destruct (walk_step_cases e file_name st p (map troot ts') Hs)
        as [[Ho _]|[[ents' [Ho [Hi' _]]]|[ents' [Ho [_ E]]]]]; try congruence.
      rewrite Eo in Ho. injection Ho as <-.
      destruct (IH (rev ks ++ ts') (walk_step e file_name st)) as [l [Hl [Hp Hm]]].
      * rewrite forallb_app, Hok', andb_true_r. apply forallb_forall.
        intros k Hk. apply in_rev in Hk. rewrite forallb_forall in Hks. auto.
      * rewrite E. simpl. rewrite Hsub, map_app, map_rev. reflexivity.
      * rewrite flat_map_tnodes_length_rev. simpl in Hlen.
        rewrite flat_map_app. rewrite length_app in Hlen |- *. lia.
      * rewrite Hl, E. simpl.
        eexists. split; [rewrite <- !app_assoc; reflexivity|].
        rewrite rev_flat_map_eq.
        rewrite !popped_app, !popped_cons, !popped_app, popped_entries_trace.
        rewrite !marker_opens_app, !marker_opens_cons, !marker_opens_app,
          marker_opens_entries_trace.
        rewrite Hp, Hm, flat_map_app. simpl. split; reflexivity.
Qed.

(** X5: on a well-formed hierarchy the walk is a depth-first preorder that
    takes the subdirectories of each directory in the reverse of their
    [readdir] order, and it tries the marker file of each directory in that
    same order. *)
Theorem walker_visits_in_preorder : forall e file_name t count fuel,
  tree_ok e file_name t = true ->
  List.length (tnodes t) <= fuel ->
  let w := trigger_existing_cgroup_probe fuel e (troot t) file_name count in
  popped (ws_trace w) = preorder t
  /\ marker_opens (ws_trace w) = map (fun p => path_join p file_name) (preorder t).
Proof.
  intros e file_name t count fuel Ht Hlen w. subst w.
  unfold trigger_existing_cgroup_probe.
  destruct (walk_forest_order e file_name fuel [t] (mk_wstate [troot t] count []))
    as [l [Hl [Hp Hm]]].
  - simpl. rewrite Ht. reflexivity.
  - reflexivity.
  - simpl. rewrite app_nil_r. exact Hlen.
  - rewrite Hl. simpl. simpl in Hp, Hm. rewrite app_nil_r in Hp, Hm. auto.
Qed.

(** * Further properties of the constructor *)

(** A finished constructor run, phase by phase, with the backfill walks and
    the counter they thread. *)
Lemma CgroupProber_eq : forall fuel e kernel_version p,
  CgroupProber fuel e kernel_version = Some p ->
  let mp1 := find_cgroup_v1_mountpoint e in
  let mp2 := find_cgroup_v2_mountpoint e in
  exists c1 v1 v2,
    ((string_empty mp1 = true /\ c1 = 0 /\ v1 = [])
     \/ (string_empty mp1 = false
         /\ ws_stack (trigger_existing_cgroup_probe fuel e mp1 "cgroup.clone_children" 0) = []
         /\ c1 = ws_count (trigger_existing_cgroup_probe fuel e mp1 "cgroup.clone_children" 0)
         /\ v1 = map (P_walk "cgroup.clone_children")
                   (ws_trace (trigger_existing_cgroup_probe fuel e mp1 "cgroup.clone_children" 0))
                 ++ [P_check "trigger_cgroup_clone_children_read()"]))
    /\ ((string_ge kernel_version cgroup_v2_first_kernel_version = false
         /\ p_count p = c1 /\ v2 = [])
        \/ (string_ge kernel_version cgroup_v2_first_kernel_version = true
            /\ exists v2b,
               v2 = [P_start_probe "on_cgroup_control" "cgroup_control";
                     P_start_kretprobe "onret_cgroup_control" "cgroup_control";
                     P_find_mountpoint 2 mp2]
                    ++ v2b ++ [P_cleanup_kretprobe "cgroup_control";
                               P_cleanup_probe "cgroup_control"]
               /\ ((string_empty mp2 = true /\ p_count p = c1 /\ v2b = [])
                   \/ (string_empty mp2 = false
                       /\ ws_stack (trigger_existing_cgroup_probe fuel e mp2 "cgroup.controllers" c1) = []
                       /\ p_count p = ws_count (trigger_existing_cgroup_probe fuel e mp2 "cgroup.controllers" c1)
                       /\ v2b = map (P_walk "cgroup.controllers")
                                  (ws_trace (trigger_existing_cgroup_probe fuel e mp2 "cgroup.controllers" c1))
                                ++ [P_check "trigger_cgroup_control()"]))))
    /\ p_trace p = prober_prefix e ++ [P_find_mountpoint 1 mp1] ++ v1
                   ++ [P_cleanup_probe "cgroup_clone_children_read"]
                   ++ v2 ++ [P_periodic; P_check "cgroup prober cleanup()"].
Proof.
  intros fuel e kernel_version p H mp1 mp2.
  unfold CgroupProber, obind, backfill in H. fold mp1 mp2 in H.
  cbn [emit p_count p_trace] in H.
  set (v2h := [P_start_probe "on_cgroup_control" "cgroup_control";
               P_start_kretprobe "onret_cgroup_control" "cgroup_control";
               P_find_mountpoint 2 mp2]).
  set (v2t := [P_cleanup_kretprobe "cgroup_control"; P_cleanup_probe "cgroup_control"]).
  assert (Hpre : forall l, start_probe_alternatives e kill_kss_probe_alternatives ++ [P_periodic]
                 ++ start_probe_alternatives e css_populate_dir_probe_alternatives ++ [P_periodic]
                 ++ [P_start_probe "on_cgroup_clone_children_read" "cgroup_clone_children_read";
                     P_start_probe "on_cgroup_attach_task" "cgroup_attach_task";
                     P_periodic; P_check "cgroup prober startup"] ++ l
                 = prober_prefix e ++ l).
  { intros l. unfold prober_prefix. rewrite <- !app_assoc. reflexivity. }
  destruct (string_empty mp1) eqn:E1; cbn [negb] in H.
  - cbn [emit p_count p_trace] in H.
    exists 0, [].
    destruct (string_ge kernel_version cgroup_v2_first_kernel_version) eqn:G.
    + destruct (string_empty mp2) eqn:E2; cbn [negb] in H.
      * injection H as <-. exists (v2h ++ [] ++ v2t).
        split; [left; auto|]. split.
        { right. split; [reflexivity|]. exists []. split; [reflexivity|]. left. auto. }
        cbn [emit p_trace]. rewrite <- Hpre. rewrite <- !app_assoc. reflexivity.
      * destruct (trigger_existing_cgroup_probe fuel e mp2 "cgroup.controllers" 0)
          as [[|? ?] c2 tr2] eqn:W2; simpl in H; [|discriminate].
        injection H as <-.
        exists (v2h ++ (map (P_walk "cgroup.controllers") tr2
                        ++ [P_check "trigger_cgroup_control()"]) ++ v2t).
        split; [left; auto|]. split.
        { right. split; [reflexivity|]. eexists. split; [reflexivity|].
          right. cbn [ws_stack ws_count ws_trace]. repeat split; auto. }
        cbn [emit p_trace]. rewrite <- Hpre. rewrite <- !app_assoc. reflexivity.
    + injection H as <-. exists [].
      split; [left; auto|]. split; [left; auto|].
      cbn [emit p_trace]. rewrite <- Hpre. rewrite <- !app_assoc. reflexivity.
  - destruct (trigger_existing_cgroup_probe fuel e mp1 "cgroup.clone_children" 0)
      as [[|? ?] c1 tr1] eqn:W1; simpl in H; [|discriminate].
    exists c1, (map (P_walk "cgroup.clone_children") tr1
                ++ [P_check "trigger_cgroup_clone_children_read()"]).
    destruct (string_ge kernel_version cgroup_v2_first_kernel_version) eqn:G.
    + destruct (string_empty mp2) eqn:E2; cbn [negb] in H.
      * injection H as <-. exists (v2h ++ [] ++ v2t).
        split; [right; cbn [ws_stack ws_count ws_trace]; auto|]. split.
        { right. split; [reflexivity|]. exists []. split; [reflexivity|]. left. auto. }
        cbn [emit p_trace]. rewrite <- Hpre. rewrite <- !app_assoc. reflexivity.
      * destruct (trigger_existing_cgroup_probe fuel e mp2 "cgroup.controllers" c1)
          as [[|? ?] c2 tr2] eqn:W2; simpl in H; [|discriminate].
        injection H as <-.
        exists (v2h ++ (map (P_walk "cgroup.controllers") tr2
                        ++ [P_check "trigger_cgroup_control()"]) ++ v2t).
        split; [right; cbn [ws_stack ws_count ws_trace]; auto|]. split.
        { right. split; [reflexivity|]. eexists. split; [reflexivity|].
          right. cbn [ws_stack ws_count ws_trace]. repeat split; auto. }
        cbn [emit p_trace]. rewrite <- Hpre. rewrite <- !app_assoc. reflexivity.
    + injection H as <-. exists [].
      split; [right; cbn [ws_stack ws_count ws_trace]; auto|]. split; [left; auto|].
      cbn [emit p_trace]. rewrite <- Hpre. rewrite <- !app_assoc. reflexivity.
Qed.

Lemma count_ev_zero : forall (A : Type) (f : A -> bool) l,
  (forall x, In x l -> f x = false) -> count_ev f l = 0.
Proof.
  intros A f l H. unfold count_ev.
  induction l as [|x l IH]; [reflexivity|]. simpl.
  rewrite (H x (or_introl eq_refl)). apply IH. intros y Hy. apply H. right. exact Hy.
Qed.

Lemma filter_none : forall (A : Type) (f : A -> bool) l,
  (forall x, In x l -> f x = false) -> filter f l = [].
Proof.
  intros A f l H. induction l as [|x l IH]; [reflexivity|]. simpl.
  rewrite (H x (or_introl eq_refl)). apply IH. intros y Hy. apply H. right. exact Hy.
Qed.

(** The walk only extends its trace. *)
Lemma walk_trace_ext : forall fuel e file_name st,
  exists l, ws_trace (walk fuel e file_name st) = ws_trace st ++ l.
Proof.
  intros fuel e file_name st.
  apply (walk_invariant (fun st' => exists l, ws_trace st' = ws_trace st ++ l)).
  - intros st' d rest Hs [l Hl].
    destruct (walk_step_events e file_name st' d rest Hs) as [l' [E _]].
    exists (l ++ l'). rewrite E, Hl, app_assoc. reflexivity.
  - exists []. rewrite app_nil_r. reflexivity.
Qed.

(** A finished walk has popped its root. *)
Lemma trigger_pops_root : forall fuel e root file_name count,
  ws_stack (trigger_existing_cgroup_probe fuel e root file_name count) = [] ->
  In (W_pop root) (ws_trace (trigger_existing_cgroup_probe fuel e root file_name count)).
Proof.
  intros fuel e root file_name count H. unfold trigger_existing_cgroup_probe in *.
  destruct fuel as [|n]; [discriminate H|]. simpl.
  destruct (walk_trace_ext n e file_name (walk_step e file_name (mk_wstate [root] count [])))
    as [l ->].
  apply in_or_app. left.
  destruct (walk_step_cases e file_name (mk_wstate [root] count []) root [] eq_refl)
    as [[_ E]|[[ents [_ [_ E]]]|[ents [_ [_ E]]]]]; rewrite E; simpl; auto.
Qed.

Lemma trigger_count : forall fuel e root file_name count,
  let w := trigger_existing_cgroup_probe fuel e root file_name count in
  ws_count w = count + failed_closes (ws_trace w).
Proof.
  intros fuel e root file_name count w. subst w. unfold trigger_existing_cgroup_probe.
  apply (walk_invariant (fun st => ws_count st = count + failed_closes (ws_trace st))).
  2: { unfold failed_closes. simpl. lia. }
  intros st d rest Hs Hinv.
  destruct (walk_step_cases e file_name st d rest Hs)
    as [[_ E]|[[ents [_ [_ E]]]|[ents [_ [_ E]]]]]; rewrite E; cbn [ws_count ws_trace];
    rewrite ?(count_close_failed _ _ d), ?failed_closes_app, ?failed_closes_entries_trace;
    rewrite Hinv; unfold failed_closes; simpl; lia.
Qed.

Lemma prober_failed_closes_app : forall l m,
  prober_failed_closes (l ++ m) = prober_failed_closes l + prober_failed_closes m.
Proof. intros. unfold prober_failed_closes. apply count_ev_app. Qed.

Lemma prober_failed_closes_walk : forall f tr,
  prober_failed_closes (map (P_walk f) tr) = failed_closes tr.
Proof.
  intros f tr. induction tr as [|ev tr IH]; [reflexivity|].
  change (ev :: tr) with ([ev] ++ tr). rewrite map_app, prober_failed_closes_app, failed_closes_app, IH.
  destruct ev as [| | ? [|] | ? [|] | | | ? [|]]; reflexivity.
Qed.

Lemma prober_failed_closes_prefix : forall e, prober_failed_closes (prober_prefix e) = 0.
Proof.
  intros e. unfold prober_failed_closes. apply count_ev_zero.
  intros ev Hev. unfold prober_prefix in Hev. split_in Hev; subst ev; reflexivity.
Qed.

Lemma probe_ops_app : forall l m, probe_ops (l ++ m) = probe_ops l ++ probe_ops m.
Proof. intros. unfold probe_ops. apply filter_app. Qed.

Lemma probe_ops_walk : forall f tr, probe_ops (map (P_walk f) tr) = [].
Proof.
  intros f tr. unfold probe_ops. apply filter_none.
  intros x Hx. apply in_map_iff in Hx as [ev [<- _]]. reflexivity.
Qed.

Lemma probe_ops_prefix : forall e,
  probe_ops (prober_prefix e) =
  [P_start_probe "on_cgroup_clone_children_read" "cgroup_clone_children_read";
   P_start_probe "on_cgroup_attach_task" "cgroup_attach_task"].
Proof.
  intros e. unfold prober_prefix. rewrite !probe_ops_app.
  assert (Ha : forall alts, probe_ops (start_probe_alternatives e alts) = []).
  { intros alts. unfold probe_ops. apply filter_none.
    intros x Hx. apply in_start_probe_alternatives in Hx as [h [s [ok ->]]]. reflexivity. }
  rewrite !Ha. reflexivity.
Qed.

Lemma checkpoints_app : forall l m, checkpoints (l ++ m) = checkpoints l ++ checkpoints m.
Proof. intros. unfold checkpoints. apply flat_map_app. Qed.

Lemma checkpoints_walk : forall f tr, checkpoints (map (P_walk f) tr) = [].
Proof. intros f tr. induction tr as [|ev tr IH]; [reflexivity|]. exact IH. Qed.

Lemma checkpoints_prefix : forall e,
  checkpoints (prober_prefix e) = ["cgroup prober startup"].
Proof.
  intros e. unfold prober_prefix. rewrite !checkpoints_app.
  assert (Ha : forall alts, checkpoints (start_probe_alternatives e alts) = []).
  { intros alts. unfold start_probe_alternatives.
    induction (snd (attach_first_success (attach_ok e) (alts_list alts)))
      as [|[a ok] l IH]; [reflexivity|].
    exact IH. }
  rewrite !Ha. reflexivity.
Qed.

Ltac find_in H :=
  first [ exact H
        | apply in_or_app; first [ left; find_in H | right; find_in H ] ].

(** X6: the counter of a finished constructor run starts at zero and is
    threaded through both backfills: it ends equal to the number of failed
    [closedir] calls over the v1 and the v2 walks together. *)
Theorem prober_count_is_failed_closes : forall fuel e kernel_version p,
  CgroupProber fuel e kernel_version = Some p ->
  p_count p = prober_failed_closes (p_trace p).
Proof.
  intros fuel e kernel_version p H.
  destruct (CgroupProber_eq fuel e kernel_version p H) as [c1 [v1 [v2 [Hv1 [Hv2 Htr]]]]].
  rewrite Htr, !prober_failed_closes_app, prober_failed_closes_prefix.
  assert (Hc1 : c1 = prober_failed_closes v1).
  { destruct Hv1 as [[_ [-> ->]]|[_ [_ [-> ->]]]]; [reflexivity|].
    rewrite trigger_count, prober_failed_closes_app, prober_failed_closes_walk. cbv [prober_failed_closes count_ev filter List.length]; lia. }
  destruct Hv2 as [[_ [-> ->]]|[_ [v2b [-> Hb]]]].
  - rewrite Hc1. cbv [prober_failed_closes count_ev filter List.length]; lia.
  - rewrite !prober_failed_closes_app.
    destruct Hb as [[_ [-> ->]]|[_ [_ [-> ->]]]].
    + rewrite Hc1. cbv [prober_failed_closes count_ev filter List.length]; lia.
    + rewrite trigger_count, prober_failed_closes_app, prober_failed_closes_walk, <- Hc1.
      cbv [prober_failed_closes count_ev filter List.length]; lia.
Qed.

(** X7: the probes the constructor attaches one symbol at a time are the two
    v1 probes and, from kernel 4.6 on (by [std::string] comparison), the
    entry and return probes on [cgroup_control]; it detaches the v1 trigger
    probe and the two [cgroup_control] probes, each after attaching it, and
    never detaches the probe on [cgroup_attach_task]. *)
Theorem prober_probe_lifecycle : forall fuel e kernel_version p,
  CgroupProber fuel e kernel_version = Some p ->
  probe_ops (p_trace p) =
    [P_start_probe "on_cgroup_clone_children_read" "cgroup_clone_children_read";
     P_start_probe "on_cgroup_attach_task" "cgroup_attach_task";
     P_cleanup_probe "cgroup_clone_children_read"]
    ++ (if string_ge kernel_version cgroup_v2_first_kernel_version then
          [P_start_probe "on_cgroup_control" "cgroup_control";
           P_start_kretprobe "onret_cgroup_control" "cgroup_control";
           P_cleanup_kretprobe "cgroup_control";
           P_cleanup_probe "cgroup_control"]
        else []).
Proof.
  intros fuel e kernel_version p H.
  destruct (CgroupProber_eq fuel e kernel_version p H) as [c1 [v1 [v2 [Hv1 [Hv2 Htr]]]]].
  rewrite Htr, !probe_ops_app, probe_ops_prefix.
  assert (H1 : probe_ops v1 = []).
  { destruct Hv1 as [[_ [_ ->]]|[_ [_ [_ ->]]]]; [reflexivity|].
    rewrite probe_ops_app, probe_ops_walk. reflexivity. }
  rewrite H1.
  destruct Hv2 as [[G [_ ->]]|[G [v2b [-> Hb]]]]; rewrite G.
  - reflexivity.
  - assert (H2 : probe_ops v2b = []).
    { destruct Hb as [[_ [_ ->]]|[_ [_ [_ ->]]]]; [reflexivity|].
      rewrite probe_ops_app, probe_ops_walk. reflexivity. }
    rewrite !probe_ops_app, H2. reflexivity.
Qed.

(** X8: the checkpoint callback is called with "cgroup prober startup", then
    after the v1 backfill if a v1 mountpoint was found, then after the v2
    backfill if the kernel gate holds and a v2 mountpoint was found, and last
    with "cgroup prober cleanup()". *)
Theorem prober_checkpoints : forall fuel e kernel_version p,
  CgroupProber fuel e kernel_version = Some p ->
  checkpoints (p_trace p) =
    ["cgroup prober startup"]
    ++ (if string_empty (find_cgroup_v1_mountpoint e) then []
        else ["trigger_cgroup_clone_children_read()"])
    ++ (if string_ge kernel_version cgroup_v2_first_kernel_version
           && negb (string_empty (find_cgroup_v2_mountpoint e))
        then ["trigger_cgroup_control()"] else [])
    ++ ["cgroup prober cleanup()"].
Proof.
  intros fuel e kernel_version p H.
  destruct (CgroupProber_eq fuel e kernel_version p H) as [c1 [v1 [v2 [Hv1 [Hv2 Htr]]]]].
  rewrite Htr, !checkpoints_app, checkpoints_prefix.
  assert (H1 : checkpoints v1 = if string_empty (find_cgroup_v1_mountpoint e) then []
                                else ["trigger_cgroup_clone_children_read()"]).
  { destruct Hv1 as [[E [_ ->]]|[E [_ [_ ->]]]]; rewrite E; [reflexivity|].
    rewrite checkpoints_app, checkpoints_walk. reflexivity. }
  rewrite H1.
  destruct Hv2 as [[G [_ ->]]|[G [v2b [-> Hb]]]]; rewrite G; [reflexivity|].
  assert (H2 : checkpoints v2b = if string_empty (find_cgroup_v2_mountpoint e) then []
                                 else ["trigger_cgroup_control()"]).
  { destruct Hb as [[E [_ ->]]|[E [_ [_ ->]]]]; rewrite E; [reflexivity|].
    rewrite checkpoints_app, checkpoints_walk. reflexivity. }
  rewrite !checkpoints_app, H2. cbn [andb negb].
  destruct (string_empty (find_cgroup_v2_mountpoint e)); reflexivity.
Qed.

(** X9: the v1 backfill walks (events tagged with "cgroup.clone_children")
    happen exactly when a v1 mountpoint is found, and then start at that
    mountpoint; the v2 backfill walks happen exactly when the kernel gate
    holds and a v2 mountpoint is found, and then start at that mountpoint. *)
Theorem prober_backfills_run_from_mountpoints : forall fuel e kernel_version p,
  CgroupProber fuel e kernel_version = Some p ->
  ((exists ev, In (P_walk "cgroup.clone_children" ev) (p_trace p))
     <-> string_empty (find_cgroup_v1_mountpoint e) = false)
  /\ (string_empty (find_cgroup_v1_mountpoint e) = false ->
      In (P_walk "cgroup.clone_children" (W_pop (find_cgroup_v1_mountpoint e))) (p_trace p))
  /\ ((exists ev, In (P_walk "cgroup.controllers" ev) (p_trace p))
      <-> string_ge kernel_version cgroup_v2_first_kernel_version = true
          /\ string_empty (find_cgroup_v2_mountpoint e) = false)
  /\ (string_ge kernel_version cgroup_v2_first_kernel_version = true ->
      string_empty (find_cgroup_v2_mountpoint e) = false ->
      In (P_walk "cgroup.controllers" (W_pop (find_cgroup_v2_mountpoint e))) (p_trace p)).
Proof.
  intros fuel e kernel_version p H.
  destruct (CgroupProber_eq fuel e kernel_version p H) as [c1 [v1 [v2 [Hv1 [Hv2 Htr]]]]].
  assert (A : (exists ev, In (P_walk "cgroup.clone_children" ev) (p_trace p)) ->
              string_empty (find_cgroup_v1_mountpoint e) = false).
  { destruct Hv1 as [[E1 [_ ->]]|[E1 _]]; [|intros; exact E1].
    intros [ev Hev]. rewrite Htr in Hev. unfold prober_prefix in Hev.
    destruct Hv2 as [[_ [_ ->]]|[_ [v2b [-> [[_ [_ ->]]|[_ [_ [_ ->]]]]]]]];
      split_in Hev; discriminate Hev. }
  assert (B : string_empty (find_cgroup_v1_mountpoint e) = false ->
              In (P_walk "cgroup.clone_children" (W_pop (find_cgroup_v1_mountpoint e)))
                 (p_trace p)).
  { intros E. destruct Hv1 as [[E1 _]|[_ [S1 [_ ->]]]]; [congruence|].
    pose proof (in_map (P_walk "cgroup.clone_children") _ _ (trigger_pops_root _ _ _ _ _ S1))
      as Hr.
    rewrite Htr. find_in Hr. }
  assert (C : (exists ev, In (P_walk "cgroup.controllers" ev) (p_trace p)) ->
              string_ge kernel_version cgroup_v2_first_kernel_version = true
              /\ string_empty (find_cgroup_v2_mountpoint e) = false).
  { intros [ev Hev]. rewrite Htr in Hev. unfold prober_prefix in Hev.
    destruct Hv2 as [[_ [_ ->]]|[G [v2b [-> [[_ [_ ->]]|[E2 _]]]]]];
      [| |split; assumption];
      destruct Hv1 as [[_ [_ ->]]|[_ [_ [_ ->]]]]; split_in Hev; discriminate Hev. }
  assert (D : string_ge kernel_version cgroup_v2_first_kernel_version = true ->
              string_empty (find_cgroup_v2_mountpoint e) = false ->
              In (P_walk "cgroup.controllers" (W_pop (find_cgroup_v2_mountpoint e)))
                 (p_trace p)).
  { intros G E. destruct Hv2 as [[G' _]|[_ [v2b [-> [[E2 _]|[_ [S2 [_ ->]]]]]]]];
      [congruence|congruence|].
    pose proof (in_map (P_walk "cgroup.controllers") _ _ (trigger_pops_root _ _ _ _ _ S2))
      as Hr.
    rewrite Htr. find_in Hr. }
  split; [split; [exact A|intros E; eexists; exact (B E)]|].
  split; [exact B|].
  split; [split; [exact C|intros [G E]; eexists; exact (D G E)]|].
  exact D.
Qed.

Lemma walker_unopenable_root_witness :
  0 < 3 /\ opendir env_hybrid "/sys/fs/cgroup/absent" = None /\
  trigger_existing_cgroup_probe 3 env_hybrid "/sys/fs/cgroup/absent" "cgroup.controllers" 5
  = mk_wstate [] 5 [W_yield; W_pop "/sys/fs/cgroup/absent";
                    W_opendir "/sys/fs/cgroup/absent" false].
Proof.
  assert (H1 : 0 < 3) by lia.
  assert (H2 : opendir env_hybrid "/sys/fs/cgroup/absent" = None) by (vm_compute; reflexivity).
  split; [exact H1|]. split; [exact H2|].
  exact (walker_unopenable_root 3 env_hybrid "/sys/fs/cgroup/absent" "cgroup.controllers" 5
           H1 H2).
Defined.

Lemma walker_visits_in_preorder_witness :
  tree_ok env_cgA "cgroup.clone_children" tree_cgA = true /\
  List.length (tnodes tree_cgA) <= 2 /\
  popped (ws_trace (trigger_existing_cgroup_probe 2 env_cgA (troot tree_cgA)
                      "cgroup.clone_children" 0)) = preorder tree_cgA /\
  marker_opens (ws_trace (trigger_existing_cgroup_probe 2 env_cgA (troot tree_cgA)
                            "cgroup.clone_children" 0))
  = map (fun p => path_join p "cgroup.clone_children") (preorder tree_cgA).
Proof.
  assert (H1 : tree_ok env_cgA "cgroup.clone_children" tree_cgA = true)
    by (vm_compute; reflexivity).
  assert (H2 : List.length (tnodes tree_cgA) <= 2) by (simpl; lia).
  split; [exact H1|]. split; [exact H2|].
  exact (walker_visits_in_preorder env_cgA "cgroup.clone_children" tree_cgA 0 2 H1 H2).
Defined.

Lemma prober_count_is_failed_closes_witness :
  exists p, CgroupProber 2 env_hybrid "5.4.0" = Some p
            /\ p_count p = prober_failed_closes (p_trace p).
Proof.
  eexists. split; [vm_compute; reflexivity|].
  match goal with |- p_count ?p = _ =>
    apply (prober_count_is_failed_closes 2 env_hybrid "5.4.0" p) end.
  vm_compute. reflexivity.
Defined.

Lemma prober_probe_lifecycle_witness :
  exists p, CgroupProber 2 env_hybrid "5.4.0" = Some p
            /\ probe_ops (p_trace p) =
    [P_start_probe "on_cgroup_clone_children_read" "cgroup_clone_children_read";
     P_start_probe "on_cgroup_attach_task" "cgroup_attach_task";
     P_cleanup_probe "cgroup_clone_children_read"]
    ++ (if string_ge "5.4.0" cgroup_v2_first_kernel_version then
          [P_start_probe "on_cgroup_control" "cgroup_control";
           P_start_kretprobe "onret_cgroup_control" "cgroup_control";
           P_cleanup_kretprobe "cgroup_control";
           P_cleanup_probe "cgroup_control"]
        else []).
Proof.
  eexists. split; [vm_compute; reflexivity|].
  match goal with |- probe_ops (p_trace ?p) = _ =>
    apply (prober_probe_lifecycle 2 env_hybrid "5.4.0" p) end.
  vm_compute. reflexivity.
Defined.

Lemma prober_checkpoints_witness :
  exists p, CgroupProber 2 env_hybrid "5.4.0" = Some p
            /\ checkpoints (p_trace p) =
    ["cgroup prober startup"]
    ++ (if string_empty (find_cgroup_v1_mountpoint env_hybrid) then []
        else ["trigger_cgroup_clone_children_read()"])
    ++ (if string_ge "5.4.0" cgroup_v2_first_kernel_version
           && negb (string_empty (find_cgroup_v2_mountpoint env_hybrid))
        then ["trigger_cgroup_control()"] else [])
    ++ ["cgroup prober cleanup()"].
Proof.
  eexists. split; [vm_compute; reflexivity|].
  match goal with |- checkpoints (p_trace ?p) = _ =>
    apply (prober_checkpoints 2 env_hybrid "5.4.0" p) end.
  vm_compute. reflexivity.
Defined.

Lemma prober_backfills_run_from_mountpoints_witness :
  exists p, CgroupProber 2 env_hybrid "5.4.0" = Some p
  /\ string_empty (find_cgroup_v1_mountpoint env_hybrid) = false
  /\ In (P_walk "cgroup.clone_children" (W_pop (find_cgroup_v1_mountpoint env_hybrid)))
        (p_trace p)
  /\ In (P_walk "cgroup.controllers" (W_pop (find_cgroup_v2_mountpoint env_hybrid)))
        (p_trace p).
Proof.
  eexists. split; [vm_compute; reflexivity|].
  assert (E1 : string_empty (find_cgroup_v1_mountpoint env_hybrid) = false)
    by (vm_compute; reflexivity).
  assert (E2 : string_empty (find_cgroup_v2_mountpoint env_hybrid) = false)
    by (vm_compute; reflexivity).
  assert (G : string_ge "5.4.0" cgroup_v2_first_kernel_version = true)
    by (vm_compute; reflexivity).
  split; [exact E1|].
  match goal with |- In _ (p_trace ?p) /\ _ =>
    destruct (prober_backfills_run_from_mountpoints 2 env_hybrid "5.4.0" p)
      as [_ [B [_ D]]]; [vm_compute; reflexivity|] end.
  split; [exact (B E1)|exact (D G E2)].
Defined.

Lemma walker_pushes_only_dt_dir_witness :
  ~ In ("/r", "l") (pushes (ws_trace (trigger_existing_cgroup_probe 10 env_untyped "/r"
                                        "cgroup.clone_children" 0)))
  /\ Forall (fun q => ~ below "/r/l" q)
       (popped (ws_trace (trigger_existing_cgroup_probe 10 env_untyped "/r"
                            "cgroup.clone_children" 0))).
Proof.
  assert (Hall : forall d', match opendir env_untyped d' with
                            | Some ents => forallb (fun ent => no_slash (d_name ent)) ents
                            | None => true end = true).
  { intros d'. unfold env_untyped. cbn [opendir].
    destruct (d' =? "/r")%string; [reflexivity|].
    destruct (d' =? "/r/l")%string; [reflexivity|].
    destruct ((d' =? "/r/u")%string || (d' =? "/r/l/x")%string); reflexivity. }
  assert (Hns : forall d' ents' ent, opendir env_untyped d' = Some ents' -> In ent ents' ->
                no_slash (d_name ent) = true).
  { intros d' ents' ent Hd Hin. specialize (Hall d'). rewrite Hd in Hall.
    rewrite forallb_forall in Hall. exact (Hall ent Hin). }
  assert (Hd : opendir env_untyped "/r"
               = Some (dot_entries ++ [mk_dirent "l" DT_LNK; mk_dirent "u" DT_UNKNOWN]))
    by reflexivity.
  assert (Hin : In (mk_dirent "l" DT_LNK)
                   (dot_entries ++ [mk_dirent "l" DT_LNK; mk_dirent "u" DT_UNKNOWN]))
    by (simpl; auto).
  assert (Hdir : ~ In (mk_dirent "l" DT_DIR)
                      (dot_entries ++ [mk_dirent "l" DT_LNK; mk_dirent "u" DT_UNKNOWN]))
    by (simpl; not_in).
  assert (Hroot : ~ below (path_join "/r" "l") "/r")
    by (intros [H|[s H]]; simpl in H; discriminate H).
  destruct (walker_pushes_only_dt_dir 10 env_untyped "/r" "cgroup.clone_children" 0)
    as [_ [_ [H3 _]]].
  exact (H3 Hns "/r" _ "l" DT_LNK Hd Hin Hdir Hroot).
Defined.
